(** * Scenario test-case generator: a shallow embedding and its properties

    The development follows the Python sources

      - [src/models.py]                               (request and response records),
      - [src/generators/field_detector.py]            (keyword driven field model),
      - [src/generators/combinatorial_generator.py]   (enumeration, classifier, narrative),
      - [src/generators/scenario_generator.py]        (the fixed four-case generator).

    Modelling conventions.

      - A Python [str] is a Rocq [string].  The string methods the code uses
        ([strip], [lower], [upper], [capitalize], [isalnum]) are given their
        ASCII behaviour; a character outside ASCII is carried as its UTF-8
        bytes and left alone by them.
      - A Python [int] is a [Z]: exponentiation and products never wrap.
      - A Python [dict] is an association list in insertion order; assigning
        to a key that is already present replaces the value in place.
      - [itertools.product(xs, repeat=n)] is the list of all [n]-tuples over
        [xs], the rightmost position advancing fastest.
      - The two nested [for] loops with their [break]s are recursive
        functions threading the pair (counter, cases). *)

From Stdlib Require Import List Bool Arith ZArith Lia Ascii String DecimalString.
Import ListNotations.

Open Scope string_scope.
Open Scope list_scope.

(* ================================================================= *)
(** ** Python string primitives *)

Module PyStr.

Definition is_upper (c : ascii) : bool :=
  let n := nat_of_ascii c in (65 <=? n)%nat && (n <=? 90)%nat.

Definition is_lower (c : ascii) : bool :=
  let n := nat_of_ascii c in (97 <=? n)%nat && (n <=? 122)%nat.

Definition is_digit (c : ascii) : bool :=
  let n := nat_of_ascii c in (48 <=? n)%nat && (n <=? 57)%nat.

(** [str.isspace] on ASCII: tab, LF, VT, FF, CR, the four separators
    0x1c..0x1f and the space. *)
Definition is_space (c : ascii) : bool :=
  let n := nat_of_ascii c in
  ((9 <=? n)%nat && (n <=? 13)%nat) || ((28 <=? n)%nat && (n <=? 32)%nat).

Definition isalnum (c : ascii) : bool :=
  is_upper c || is_lower c || is_digit c.

Definition lower_char (c : ascii) : ascii :=
  if is_upper c then ascii_of_nat (nat_of_ascii c + 32) else c.

Definition upper_char (c : ascii) : ascii :=
  if is_lower c then ascii_of_nat (nat_of_ascii c - 32) else c.

Fixpoint map_chars (f : ascii -> ascii) (s : string) : string :=
  match s with
  | EmptyString => EmptyString
  | String c s' => String (f c) (map_chars f s')
  end.

Definition lower : string -> string := map_chars lower_char.
Definition upper : string -> string := map_chars upper_char.

(** [s.capitalize()]: first character upper-cased, the rest lower-cased. *)
Definition capitalize (s : string) : string :=
  match s with
  | EmptyString => EmptyString
  | String c s' => String (upper_char c) (lower s')
  end.

(** [s.replace(old, new)] for one-character [old] and [new]. *)
Definition replace (old new : ascii) : string -> string :=
  map_chars (fun c => if Ascii.eqb c old then new else c).

Fixpoint filter_chars (p : ascii -> bool) (s : string) : string :=
  match s with
  | EmptyString => EmptyString
  | String c s' => if p c then String c (filter_chars p s') else filter_chars p s'
  end.

Fixpoint lstrip (s : string) : string :=
  match s with
  | EmptyString => EmptyString
  | String c s' => if is_space c then lstrip s' else s
  end.

(** Removes trailing white space: a character is dropped when it is
    white space and nothing but white space follows it. *)
Fixpoint rstrip (s : string) : string :=
  match s with
  | EmptyString => EmptyString
  | String c s' =>
      match rstrip s' with
      | EmptyString => if is_space c then EmptyString else String c EmptyString
      | r => String c r
      end
  end.

Definition strip (s : string) : string := rstrip (lstrip s).

(** [needle in hay]. *)
Fixpoint contains (needle hay : string) : bool :=
  String.prefix needle hay ||
  match hay with
  | EmptyString => false
  | String _ hay' => contains needle hay'
  end.

Definition startswith (s p : string) : bool := String.prefix p s.

(** [s[:n]]. *)
Definition take (n : nat) (s : string) : string := String.substring 0 n s.

(** [sep.join(parts)]. *)
Fixpoint join (sep : string) (parts : list string) : string :=
  match parts with
  | [] => ""
  | [p] => p
  | p :: rest => p ++ sep ++ join sep rest
  end.

(** [x or default] on strings: the empty string is falsy. *)
Definition or_else (s default : string) : string :=
  match s with EmptyString => default | _ => s end.

Definition is_empty (s : string) : bool :=
  match s with EmptyString => true | _ => false end.

(** [str(n)] for a non-negative integer. *)
Definition of_nat (n : nat) : string := NilZero.string_of_uint (Nat.to_uint n).

Fixpoint zeros (n : nat) : string :=
  match n with O => "" | S n' => String "0" (zeros n') end.

(** [f"{n:04d}"] for a non-negative integer. *)
Definition fmt04d (n : Z) : string :=
  let digits := NilZero.string_of_uint (N.to_uint (Z.to_N n)) in
  zeros (4 - String.length digits) ++ digits.

Definition nl : string := String (ascii_of_nat 10) EmptyString.

End PyStr.

(** [x in xs] for a list of strings. *)
Definition mem (x : string) (xs : list string) : bool :=
  existsb (String.eqb x) xs.

(** [xs.count(x)]. *)
Definition count (x : string) (xs : list string) : Z :=
  Z.of_nat (List.length (filter (String.eqb x) xs)).

Definition is_nil {A : Type} (l : list A) : bool :=
  match l with [] => true | _ => false end.

(* ================================================================= *)
(** ** Dictionaries in insertion order *)

Definition dict : Type := list (string * string).

(** [d[k] = v]. *)
Fixpoint dict_set (d : dict) (k v : string) : dict :=
  match d with
  | [] => [(k, v)]
  | (k', v') :: d' =>
      if String.eqb k' k then (k', v) :: d' else (k', v') :: dict_set d' k v
  end.

(** [d.get(k)]. *)
Fixpoint dict_get (d : dict) (k : string) : option string :=
  match d with
  | [] => None
  | (k', v') :: d' => if String.eqb k' k then Some v' else dict_get d' k
  end.

Definition dict_keys (d : dict) : list string := map fst d.

(** [for k, v in zip(ks, vs): d[k] = v]. *)
Definition dict_update_zip (d : dict) (ks vs : list string) : dict :=
  fold_left (fun acc kv => dict_set acc (fst kv) (snd kv)) (combine ks vs) d.


(* ================================================================= *)
(** ** [models.py] *)

(** [Literal["web", "mobile", "api", "desktop", "automotive", "generic"]]. *)
Inductive Platform : Type :=
  | web | mobile | api | desktop | automotive | generic.

Definition platform_str (p : Platform) : string :=
  match p with
  | web => "web"
  | mobile => "mobile"
  | api => "api"
  | desktop => "desktop"
  | automotive => "automotive"
  | generic => "generic"
  end.

Module ScenarioRequest.
Record t : Type := mk
  { scenario : string;
    platform : Platform;
    num_cases : Z }.

(** The constraints of the schema: [min_length=3], [ge=1], [le=20]. *)
Definition valid (r : t) : Prop :=
  (3 <= String.length (scenario r))%nat /\ (1 <= num_cases r <= 20)%Z.
End ScenarioRequest.

Module TestCase.
Record t : Type := mk
  { id : string;
    title : string;
    preconditions : list string;
    steps : list string;
    expected_result : string;
    priority : string;
    tags : list string }.
End TestCase.

Module CombinationRequest.
Record t : Type := mk
  { scenario : string;
    platform : Platform;
    text_fields : option (list string);
    binary_fields : option (list string);
    max_cases : Z }.

(** The constraints of the schema: [min_length=3], [ge=1], [le=1000]. *)
Definition valid (r : t) : Prop :=
  (3 <= String.length (scenario r))%nat /\ (1 <= max_cases r <= 1000)%Z.

Definition with_max_cases (r : t) (m : Z) : t :=
  mk (scenario r) (platform r) (text_fields r) (binary_fields r) m.
End CombinationRequest.

Module CombinationCase.
Record t : Type := mk
  { id : string;
    category : list string;
    combination : dict;
    steps : list string;
    expected_result : string;
    markdown : string }.
End CombinationCase.

Module CombinationResponse.
Record t : Type := mk
  { scenario : string;
    platform : string;
    text_fields : list string;
    binary_fields : list string;
    total_combinations : Z;
    returned_count : Z;
    page : Z;
    page_size : Z;
    pages_total : Z;
    cases : list CombinationCase.t;
    combined_markdown : string }.
End CombinationResponse.

(* ================================================================= *)
(** ** [field_detector.py] *)

Definition detect_fields_for_scenario (scenario : string)
  : list string * list string :=
  let s := PyStr.lower (PyStr.strip scenario) in
  let has := fun kw => PyStr.contains kw s in
  let has_sp := fun kw => PyStr.contains kw (PyStr.replace "-" " " s) in
  if has "login" || has_sp "sign in" || has "authenticate" then
    (["username"; "password"; "otp"], ["remember_me"; "show_password"])
  else if has "logout" || has_sp "sign out" then
    (["session_id"], ["is_network_connected"])
  else if has "checkout" || has "payment" || has "purchase" then
    (["shipping_address"; "zipcode"; "card_number"; "cvv"],
     ["save_address"; "accept_terms"])
  else if has "registration" || has_sp "sign up" || has "signup" then
    (["full_name"; "email"; "password"; "confirm_password"],
     ["accept_terms"; "subscribe_newsletter"])
  else if has "reset password" || has "forgot password" || has "password_reset" then
    (["email"; "otp"; "new_password"], ["remember_device"])
  else if has "add to cart" || has_sp "add_to_cart" then
    (["product_id"; "quantity"], ["is_logged_in"])
  else if has "api" || has "endpoint" || has "request" then
    (["payload"; "auth_token"], ["is_authenticated"])
  else if has "ecu" || has "firmware" || has "diagnostic"
          || (has "can" && negb (has "door")) then
    (["request_id"; "checksum"; "ecu_id"],
     ["is_vehicle_running"; "is_ignition_on"])
  else if has "hmi" || has "ui" || has "user interface" then
    (["screen_id"; "language"; "theme"; "brightness_level"],
     ["is_touch_enabled"; "is_night_mode"])
  else if has "audio" && (has "routing" || has "source" || has "output") then
    (["audio_source"; "output_target"; "volume_level"; "balance_setting"],
     ["is_nav_prompt_active"; "is_phone_call_active"])
  else if has "bluetooth" || has "bt " || PyStr.startswith s "bt " then
    (["phone_bucket"; "bt_profile"; "reconnect_trigger"; "power_state"; "hu_state"],
     ["is_device_paired_before"; "is_auto_reconnect_enabled"])
  else if has "wifi" || has "wi-fi" || has "hotspot" then
    (["ssid"; "wifi_password"; "signal_strength"; "client_profile"],
     ["is_hotspot_enabled"; "is_client_mode_enabled"])
  else if has "navigation" || has "nav " || has "gnss" || has "route" then
    (["start_location"; "destination"; "route_type"; "traffic_condition"],
     ["is_gps_locked"; "is_online_services_available"])
  else if has "vehicle integration"
          || ((has "can" || has "lin") && negb (has "door")) then
    (["signal_name"; "signal_value"; "bus_load"],
     ["is_ignition_on"; "is_vehicle_moving"])
  else if has "ota" || has "over-the-air" || has "software update" then
    (["package_version"; "package_size"; "current_sw_version"],
     ["is_wifi_connected"; "is_battery_ok"])
  else if has "performance" || has "latency" || has "response time" then
    (["operation_type"; "data_volume"; "concurrent_sessions"],
     ["is_logging_enabled"; "is_debug_mode"])
  else if has "security" || has "access control" || has "authorization" then
    (["user_role"; "auth_method"; "resource_name"],
     ["is_mfa_enabled"; "is_account_locked"])
  else if has "robustness" || has "power cycle" || has "fault" || has "stress" then
    (["fault_type"; "recovery_attempts"; "test_duration"],
     ["is_network_available"; "is_backup_path_available"])
  else if has "door warning" || (has "door" && has "warning") then
    (["door_signal"; "vehicle_speed"; "voltage_profile"],
     ["is_ignition_on"; "cluster_active"])
  else ([], []).

(* ================================================================= *)
(** ** [combinatorial_generator.py] *)

Definition TEXT_STATES : list string := ["Valid"; "Invalid"; "Empty"].
Definition BINARY_STATES : list string := ["Checked"; "Unchecked"].

Definition _compute_total_combinations (num_text_fields num_binary_fields : Z) : Z :=
  (3 ^ num_text_fields * 2 ^ num_binary_fields)%Z.

(** The test that opens the security rules of the classifier, on the
    trimmed and lower-cased scenario [s]. *)
Definition security_scenario (s : string) : bool :=
  PyStr.contains "login" s || PyStr.contains "auth" s
  || PyStr.contains "sign in" (PyStr.replace "-" " " s).

(** Body of the loop over [combination.items()] in the security rules. *)
Definition security_step (cats : list string) (item : string * string) : list string :=
  let (field, state) := item in
  let lf := PyStr.lower field in
  if mem lf ["password"; "otp"; "token"] && mem state ["Invalid"; "Empty"] then
    if negb (mem "Security" cats) then cats ++ ["Security"] else cats
  else cats.

Definition _categorize_combination (scenario : string) (combination : dict)
  : list string :=
  let cats : list string := [] in
  let s := PyStr.lower (PyStr.strip scenario) in
  let text_states :=
    map snd (filter (fun item => mem (snd item) TEXT_STATES) combination) in
  let has_invalid := existsb (fun state => String.eqb state "Invalid") text_states in
  let has_empty := existsb (fun state => String.eqb state "Empty") text_states in
  let all_valid_text :=
    negb (is_nil text_states)
    && forallb (fun state => String.eqb state "Valid") text_states in
  let cats := if all_valid_text then cats ++ ["Positive"] else cats in
  let cats :=
    if has_empty then ((cats ++ ["Negative"]) ++ ["Validation"]) ++ ["Edge"]
    else cats in
  let cats :=
    if has_invalid then
      if negb (mem "Negative" cats) then cats ++ ["Negative"] else cats
    else cats in
  let cats :=
    if security_scenario s then
      let cats := fold_left security_step combination cats in
      if (count "Invalid" text_states >=? 2)%Z && negb (mem "Security" cats)
      then cats ++ ["Security"] else cats
    else cats in
  let cats := if is_nil cats then cats ++ ["Positive"] else cats in
  cats.

(** The two opening steps, by platform. *)
Definition opening_steps (platform : Platform) : list string :=
  match platform with
  | web =>
      ["Launch a supported web browser (e.g. latest Chrome or Firefox).";
       "Navigate to the application's URL and ensure the page loads without errors."]
  | mobile =>
      ["Launch the mobile application on a supported device/emulator.";
       "Ensure the app loads to the main screen without crashes."]
  | api =>
      ["Prepare an API client (e.g. Postman, curl, or automated test).";
       "Ensure the target environment and endpoint are reachable."]
  | desktop =>
      ["Launch the desktop application on a supported operating system.";
       "Ensure the application starts successfully without error dialogs."]
  | automotive =>
      ["Ensure the test vehicle or HIL/SIL environment is powered on and in a safe state.";
       "Connect diagnostic/tools to the in-vehicle network or test bench as required."]
  | generic =>
      ["Open the system under test using the appropriate client or interface.";
       "Navigate to the relevant module for this scenario."]
  end.

(** Body of the loop over the fields that appends the step of one field. *)
Definition field_step (scenario : string) (steps : list string)
  (item : string * string) : list string :=
  let (field, state) := item in
  let lf := PyStr.lower field in
  if String.eqb state "Valid" then
    steps ++ [("Enter a valid value into '" ++ field
              ++ "' (e.g. a correctly formatted and allowed " ++ lf ++ ").")%string]
  else if String.eqb state "Invalid" then
    steps ++ [("Enter an invalid or not allowed value into '" ++ field ++ "' "
              ++ "(e.g. wrong format, out-of-range value, or disallowed characters).")%string]
  else if String.eqb state "Empty" then
    steps ++ [("Leave the '" ++ field
              ++ "' field empty or do not provide this parameter in the request.")%string]
  else if String.eqb state "Checked" then
    steps ++ [("Ensure the '" ++ field
              ++ "' option is enabled/checked before executing the '"
              ++ scenario ++ "' operation.")%string]
  else if String.eqb state "Unchecked" then
    steps ++ [("Ensure the '" ++ field
              ++ "' option is disabled/unchecked before executing the '"
              ++ scenario ++ "' operation.")%string]
  else steps.

Definition _build_steps_for_combination (req : CombinationRequest.t)
  (combination : dict) : list string :=
  let scenario := PyStr.strip (CombinationRequest.scenario req) in
  let platform := CombinationRequest.platform req in
  let steps := opening_steps platform in
  let steps :=
    steps ++ [("Navigate to the part of the system where the '" ++ scenario
              ++ "' operation is performed (screen, API endpoint, or flow).")%string] in
  let steps := fold_left (field_step scenario) combination steps in
  let steps :=
    steps ++ [("Trigger the '" ++ scenario
              ++ "' operation (e.g. click the corresponding button, submit the form, or send the API request).")%string] in
  let steps :=
    steps ++ ["Observe the system behaviour in the UI, logs, and/or API response, including status codes and returned data."] in
  steps.

(** The five texts [_build_expected_result] can return; [s] is the
    trimmed scenario. *)
Definition success_text (s : string) : string :=
  "The system successfully completes the '" ++ s
  ++ "' operation. The expected UI changes, data updates, "
  ++ "and/or API responses are produced without errors. No validation or error messages are displayed, "
  ++ "and the system state is consistent and correct.".

Definition validation_text : string :=
  "The system does not proceed with the main operation. Clear and descriptive validation messages are "
  ++ "displayed or returned for all fields that are empty or invalid. No partial data is stored, no corrupted "
  ++ "state is created, and any previously valid data remains unchanged.".

Definition security_text : string :=
  "The system protects against unauthorized or suspicious usage of the scenario. Login or privileged "
  ++ "operations are rejected, error messages remain generic (no sensitive information leakage), and no "
  ++ "user session or privileged access is granted. Any relevant security/audit logs are created as per policy.".

Definition negative_text : string :=
  "The system rejects the operation for this combination of inputs. Appropriate error or validation messages "
  ++ "are displayed or returned, and the system remains stable without crashes or unhandled exceptions.".

Definition fallback_text (s : string) : string :=
  "The system handles the '" ++ s
  ++ "' operation in accordance with the specification for this input combination, "
  ++ "without compromising stability, data integrity, or security.".

Definition _build_expected_result (scenario : string) (categories : list string)
  (combination : dict) : string :=
  let s := PyStr.strip scenario in
  if mem "Positive" categories && negb (mem "Negative" categories)
     && negb (mem "Validation" categories)
  then success_text s
  else if mem "Validation" categories || mem "Edge" categories
  then validation_text
  else if mem "Security" categories
  then security_text
  else if mem "Negative" categories
  then negative_text
  else fallback_text s.

(** [for idx, step in enumerate(steps, start=idx): lines.append(f"{idx}. {step}")]. *)
Fixpoint numbered_steps (idx : nat) (steps : list string) : list string :=
  match steps with
  | [] => []
  | step :: rest =>
      (PyStr.of_nat idx ++ ". " ++ step)%string :: numbered_steps (S idx) rest
  end.

Definition _build_markdown_for_case (case_id scenario : string)
  (categories : list string) (combination : dict) (steps : list string)
  (expected_result : string) : string :=
  let cat_str :=
    if negb (is_nil categories) then PyStr.join ", " categories
    else "Unclassified" in
  let lines : list string := [] in
  let lines :=
    lines ++ [("### " ++ case_id ++ " â€” " ++ PyStr.capitalize scenario
               ++ " Combination Test")%string] in
  let lines := lines ++ [("**Category:** " ++ cat_str)%string] in
  let lines := lines ++ ["**Combination:**"] in
  let lines :=
    fold_left
      (fun lines item =>
         lines ++ [("- **" ++ fst item ++ "**: " ++ snd item)%string])
      combination lines in
  let lines := lines ++ [""] in
  let lines := lines ++ ["**Steps:**"] in
  let lines := lines ++ numbered_steps 1 steps in
  let lines := lines ++ [""] in
  let lines := lines ++ ["**Expected Result:**"] in
  let lines := lines ++ [("- " ++ expected_result)%string] in
  let lines := lines ++ [""] in
  PyStr.join PyStr.nl lines.

(** [itertools.product(xs, repeat=n)] as a list. *)
Fixpoint product (xs : list string) (repeat : nat) : list (list string) :=
  match repeat with
  | O => [[]]
  | S n => flat_map (fun x => map (cons x) (product xs n)) xs
  end.

(** The assignment built for one pair of tuples: text fields first,
    then binary fields, each by [combination[field_name] = state]. *)
Definition build_combination (text_fields binary_fields text_states binary_states
  : list string) : dict :=
  let combination : dict := [] in
  let combination := dict_update_zip combination text_fields text_states in
  let combination := dict_update_zip combination binary_fields binary_states in
  combination.

(** Everything the loops of [generate_combinations] read but do not change. *)
Record LoopEnv : Type := mkLoopEnv
  { env_req : CombinationRequest.t;
    env_scenario : string;
    env_prefix : string;
    env_text_fields : list string;
    env_binary_fields : list string }.

(** Body of the inner loop after the cap test: builds the case numbered
    [counter]. *)
Definition make_case (env : LoopEnv) (counter : Z)
  (text_states binary_states : list string) : CombinationCase.t :=
  let req := env_req env in
  let scenario := env_scenario env in
  let combination :=
    build_combination (env_text_fields env) (env_binary_fields env)
      text_states binary_states in
  let categories := _categorize_combination scenario combination in
  let steps := _build_steps_for_combination req combination in
  let expected_result := _build_expected_result scenario categories combination in
  let case_id := (env_prefix env ++ "-" ++ PyStr.fmt04d counter)%string in
  let markdown :=
    _build_markdown_for_case case_id scenario categories combination steps
      expected_result in
  CombinationCase.mk case_id categories combination steps expected_result markdown.

(** Loop state: the counter and the cases appended so far. *)
Definition LoopState : Type := (Z * list CombinationCase.t)%type.

(** [for binary_states in binary_state_products: ...], leaving at the
    [break] with the counter already incremented. *)
Fixpoint inner_loop (env : LoopEnv) (text_states : list string)
  (binary_state_products : list (list string)) (st : LoopState) : LoopState :=
  match binary_state_products with
  | [] => st
  | binary_states :: rest =>
      let counter := (fst st + 1)%Z in
      if (counter >? CombinationRequest.max_cases (env_req env))%Z
      then (counter, snd st)
      else inner_loop env text_states rest
             (counter, snd st ++ [make_case env counter text_states binary_states])
  end.

(** [for text_states in text_state_products: ...], with the second
    [break] after the inner loop. *)
Fixpoint outer_loop (env : LoopEnv)
  (text_state_products binary_state_products : list (list string))
  (st : LoopState) : LoopState :=
  match text_state_products with
  | [] => st
  | text_states :: rest =>
      let st := inner_loop env text_states binary_state_products st in
      if (fst st >? CombinationRequest.max_cases (env_req env))%Z
      then st
      else outer_loop env rest binary_state_products st
  end.

(** Step 1 of [generate_combinations]: the explicit lists when one of them
    is non-empty, else the detected ones, else the default ["input"]. *)
Definition resolve_fields (req : CombinationRequest.t)
  : list string * list string :=
  let text_fields :=
    match CombinationRequest.text_fields req with
    | Some (x :: l) => x :: l
    | _ => []
    end in
  let binary_fields :=
    match CombinationRequest.binary_fields req with
    | Some (x :: l) => x :: l
    | _ => []
    end in
  let '(text_fields, binary_fields) :=
    if is_nil text_fields && is_nil binary_fields
    then detect_fields_for_scenario (CombinationRequest.scenario req)
    else (text_fields, binary_fields) in
  (* If still empty, provide a very simple default *)
  if is_nil text_fields && is_nil binary_fields
  then (["input"], [])
  else (text_fields, binary_fields).

Definition generate_combinations (req : CombinationRequest.t)
  : CombinationResponse.t :=
  (* 1) Determine fields *)
  let '(text_fields, binary_fields) := resolve_fields req in
  let num_text := Z.of_nat (List.length text_fields) in
  let num_binary := Z.of_nat (List.length binary_fields) in
  let total_combinations := _compute_total_combinations num_text num_binary in
  (* 2) Generate all raw combinations *)
  let text_state_products :=
    if (num_text >? 0)%Z then product TEXT_STATES (Z.to_nat num_text) else [[]] in
  let binary_state_products :=
    if (num_binary >? 0)%Z then product BINARY_STATES (Z.to_nat num_binary)
    else [[]] in
  let scenario := PyStr.strip (CombinationRequest.scenario req) in
  let prefix :=
    PyStr.or_else (PyStr.take 8 (PyStr.replace " " "_" (PyStr.upper scenario)))
      "SCEN" in
  let env := mkLoopEnv req scenario prefix text_fields binary_fields in
  let '(counter, cases) :=
    outer_loop env text_state_products binary_state_products (0%Z, []) in
  (* For now we return everything as a single page *)
  let returned_count := Z.of_nat (List.length cases) in
  let page := 1%Z in
  let page_size := returned_count in
  let pages_total := 1%Z in
  let combined_markdown :=
    PyStr.join PyStr.nl (map CombinationCase.markdown cases) in
  CombinationResponse.mk scenario
    (platform_str (CombinationRequest.platform req))
    text_fields binary_fields total_combinations returned_count
    page page_size pages_total cases combined_markdown.

(* ================================================================= *)
(** ** [scenario_generator.py] *)

Definition _make_id_prefix (scenario : string) : string :=
  let cleaned := PyStr.filter_chars PyStr.isalnum (PyStr.upper scenario) in
  let cleaned := if PyStr.is_empty cleaned then "SCENARIO" else cleaned in
  PyStr.take 10 cleaned.

Definition generate_scenario_tests (request : ScenarioRequest.t)
  : list TestCase.t :=
  let scenario := PyStr.strip (ScenarioRequest.scenario request) in
  let platform :=
    PyStr.lower (PyStr.strip
      (PyStr.or_else (platform_str (ScenarioRequest.platform request)) "generic")) in
  let prefix := _make_id_prefix scenario in
  let tag_base := [platform] in
  let tc1 :=
    TestCase.mk
      (prefix ++ "-001")
      (scenario ++ " - happy path")
      ["System is available and responsive.";
       "All required preconditions for the scenario are fulfilled (data, configuration, permissions)."]
      [("Open the application or module where '" ++ scenario ++ "' is performed.")%string;
       ("Navigate to the screen or API endpoint responsible for '" ++ scenario ++ "'.")%string;
       "Provide all required inputs with valid and typical data values.";
       ("Trigger the main action to execute '" ++ scenario ++ "' (e.g. click button, call API).")%string;
       "Wait for the system to process the request.";
       "Observe the UI, logs, or API response returned by the system."]
      ("The system successfully completes '" ++ scenario ++ "' without errors. "
       ++ "The expected UI changes, data updates, or API responses are visible, "
       ++ "and logs show no critical errors.")
      "High"
      (["happy_path"] ++ tag_base) in
  let tc2 :=
    TestCase.mk
      (prefix ++ "-002")
      (scenario ++ " - missing required data")
      ["System is available."]
      [("Open the part of the application where '" ++ scenario ++ "' would normally be executed.")%string;
       "Identify fields or parameters that are mandatory according to the specification.";
       "Leave one or more mandatory fields empty or unset.";
       ("Attempt to execute '" ++ scenario ++ "' (e.g. click save/submit or call API).")%string;
       "Observe any validation messages or error indicators."]
      ("The system does not proceed with the operation. "
       ++ "Clear validation messages are displayed for all missing required fields, "
       ++ "indicating what needs to be provided. No data is saved and no partial "
       ++ "or corrupted state is created.")
      "Medium"
      (["validation"; "negative"] ++ tag_base) in
  let tc3 :=
    TestCase.mk
      (prefix ++ "-003")
      (scenario ++ " - invalid data values")
      ["System is available."]
      [("Open the screen or endpoint where '" ++ scenario ++ "' is performed.")%string;
       "Identify input fields or parameters that have format or range constraints.";
       ("Enter invalid, out-of-range, or syntactically incorrect values "
        ++ "(e.g. wrong format, too long, negative where not allowed).")%string;
       ("Attempt to execute '" ++ scenario ++ "' with these invalid values.")%string;
       "Observe the system response and any messages shown to the user or API client."]
      ("The system rejects invalid data inputs. User-friendly error or validation "
       ++ "messages are displayed, no data corruption occurs, and the system remains "
       ++ "stable without crashes or unhandled exceptions.")
      "High"
      (["negative"; "data_validation"] ++ tag_base) in
  let tc4 :=
    TestCase.mk
      (prefix ++ "-004")
      (scenario ++ " - boundary and edge conditions")
      ["System is available.";
       ("Boundary values and limits for inputs are known "
        ++ "(e.g. min/max length, numeric ranges).")%string]
      [("Open the relevant part of the application for '" ++ scenario ++ "'.")%string;
       "Identify fields or parameters with defined limits (length, range, list size, etc.).";
       "Test with minimum allowed values.";
       "Test with maximum allowed values.";
       "If applicable, test just-below-minimum and just-above-maximum values.";
       ("Attempt to perform '" ++ scenario ++ "' with each of these values.")%string]
      ("The system correctly enforces boundary conditions. "
       ++ "Values within the allowed range are accepted and processed correctly, "
       ++ "while values outside the allowed range are rejected with appropriate messages. "
       ++ "System stability is maintained throughout testing.")
      "Medium"
      (["boundary"; "edge_case"] ++ tag_base) in
  [tc1; tc2; tc3; tc4].

(* ================================================================= *)
(** ** Vocabulary of the specification *)

(** The five category labels. *)
Definition LABELS : list string :=
  ["Positive"; "Negative"; "Validation"; "Edge"; "Security"].

(** The five narrative variants of the expected result. *)
Inductive Narrative : Type :=
  | SuccessNarrative
  | ValidationRejection
  | SecurityRejection
  | GenericRejection
  | CompliantHandling.

Definition narrative_text (s : string) (v : Narrative) : string :=
  match v with
  | SuccessNarrative => success_text s
  | ValidationRejection => validation_text
  | SecurityRejection => security_text
  | GenericRejection => negative_text
  | CompliantHandling => fallback_text s
  end.

(** The precedence of the specification, rule by rule: a rule applies
    when its own condition holds and the conditions of all earlier rules
    fail. *)
Inductive selects (categories : list string) : Narrative -> Prop :=
  | sel_success :
      In "Positive" categories ->
      ~ In "Negative" categories ->
      ~ In "Validation" categories ->
      selects categories SuccessNarrative
  | sel_validation :
      ~ (In "Positive" categories /\ ~ In "Negative" categories
         /\ ~ In "Validation" categories) ->
      In "Validation" categories \/ In "Edge" categories ->
      selects categories ValidationRejection
  | sel_security :
      ~ (In "Positive" categories /\ ~ In "Negative" categories
         /\ ~ In "Validation" categories) ->
      ~ (In "Validation" categories \/ In "Edge" categories) ->
      In "Security" categories ->
      selects categories SecurityRejection
  | sel_negative :
      ~ (In "Positive" categories /\ ~ In "Negative" categories
         /\ ~ In "Validation" categories) ->
      ~ (In "Validation" categories \/ In "Edge" categories) ->
      ~ In "Security" categories ->
      In "Negative" categories ->
      selects categories GenericRejection
  | sel_fallback :
      ~ (In "Positive" categories /\ ~ In "Negative" categories
         /\ ~ In "Validation" categories) ->
      ~ (In "Validation" categories \/ In "Edge" categories) ->
      ~ In "Security" categories ->
      ~ In "Negative" categories ->
      selects categories CompliantHandling.

(** Two state values are interchangeable for a binary field: they are
    equal, or both are states of a binary field. *)
Definition binary_variant (item1 item2 : string * string) : Prop :=
  fst item1 = fst item2
  /\ (snd item1 = snd item2
      \/ (In (snd item1) BINARY_STATES /\ In (snd item2) BINARY_STATES)).

(** The [n] states at position [i] of the enumeration of all [n]-tuples
    over [states]: the digits of [i] in base [length states], the first
    field taking the most significant one. *)
Definition digit_tuple (states : list string) (n i : nat) : list string :=
  let base := List.length states in
  map (fun j => nth ((i / base ^ (n - 1 - j)) mod base) states "") (seq 0 n).

(** The assignment expected at position [k] of the enumeration for the
    field model [(text_fields, binary_fields)]. *)
Definition assignment_at (text_fields binary_fields : list string) (k : nat)
  : dict :=
  let t := List.length text_fields in
  let b := List.length binary_fields in
  combine text_fields (digit_tuple TEXT_STATES t (k / 2 ^ b))
  ++ combine binary_fields (digit_tuple BINARY_STATES b (k mod 2 ^ b)).

(** What the two loops append, read off the flat list of pairs of
    tuples: one case per pair while the counter stays within the cap. *)
Fixpoint emit (env : LoopEnv) (pairs : list (list string * list string))
  (counter : Z) : list CombinationCase.t :=
  match pairs with
  | [] => []
  | (text_states, binary_states) :: rest =>
      if (counter + 1 >? CombinationRequest.max_cases (env_req env))%Z then []
      else make_case env (counter + 1) text_states binary_states
           :: emit env rest (counter + 1)
  end.

(** The names of a list in the order of their first occurrence: the keys
    of a dictionary to which the names are assigned one after the other. *)
Fixpoint add_names (seen names : list string) : list string :=
  match names with
  | [] => seen
  | x :: rest => add_names (if mem x seen then seen else seen ++ [x]) rest
  end.

Definition first_occurrences (names : list string) : list string :=
  add_names [] names.

(** The environment in which [generate_combinations] runs its loops. *)
Definition loop_env (req : CombinationRequest.t) : LoopEnv :=
  let scenario := PyStr.strip (CombinationRequest.scenario req) in
  let prefix :=
    PyStr.or_else (PyStr.take 8 (PyStr.replace " " "_" (PyStr.upper scenario)))
      "SCEN" in
  mkLoopEnv req scenario prefix (fst (resolve_fields req)) (snd (resolve_fields req)).

(** All pairs of a tuple of text states and a tuple of binary states, in
    the order the nested loops visit them. *)
Definition state_pairs (text_fields binary_fields : list string)
  : list (list string * list string) :=
  list_prod (product TEXT_STATES (List.length text_fields))
            (product BINARY_STATES (List.length binary_fields)).

(** A request that names no field of its own. *)
Definition no_explicit_fields (req : CombinationRequest.t) : Prop :=
  (CombinationRequest.text_fields req = None
   \/ CombinationRequest.text_fields req = Some [])
  /\ (CombinationRequest.binary_fields req = None
      \/ CombinationRequest.binary_fields req = Some []).

(* ================================================================= *)
(** ** [scenario_library.py] and [combinational_generator.py]

    The earlier generator of the repository, with its own table of
    profiles.  [main.py] does not call it. *)

Module Legacy.

(** One value of the table: a dictionary with the keys "keywords",
    "text_fields", "binary_fields" and, for some entries,
    "domain_specific".  A key that is absent is [None]. *)
Record Config : Type := mkConfig
  { keywords : option (list string);
    text_fields : list string;
    binary_fields : list string;
    domain_specific : option (list (string * list string)) }.

Definition AUTOMOTIVE_SCENARIOS : list (string * Config) :=
  [("bluetooth",
    mkConfig (Some ["bluetooth"; "pair"; "reconnect"; "bt"; "handsfree"])
      ["device_name"; "pin_code"] ["bt_enabled"; "contact_sync_enabled"]
      (Some [("phone_types", ["iOS"; "Samsung"; "Android_Other"; "China_OEM"]);
             ("profiles", ["HFP"; "A2DP"; "PBAP"]);
             ("reconnect_triggers", ["IGN_OFF_ON"; "BT_OFF_ON"; "Out_of_range"]);
             ("power_states", ["KL15"; "ACC"; "Crank"])]));
   ("wifi",
    mkConfig (Some ["wifi"; "hotspot"; "wireless"])
      ["ssid"; "password"] ["hotspot_enabled"; "autoconnect"] None);
   ("hmi",
    mkConfig (Some ["hmi"; "ui"; "screen"; "menu"; "touch"])
      ["screen_name"; "button_id"] ["touch_enabled"; "gesture_enabled"] None);
   ("audio",
    mkConfig (Some ["audio"; "volume"; "routing"; "media"])
      ["source"; "target_output"] ["nav_prompt_active"; "phone_call_active"] None);
   ("navigation",
    mkConfig (Some ["navigation"; "gps"; "route"; "reroute"])
      ["destination"; "start_point"; "route_type"]
      ["traffic_enabled"; "gps_signal_ok"] None);
   ("vehicle_integration",
    mkConfig (Some ["can"; "lin"; "vehicle"; "signal"])
      ["signal_name"; "value"] ["ignition_on"; "battery_present"] None);
   ("ota",
    mkConfig (Some ["ota"; "update"; "firmware"])
      ["version"; "package_id"] ["wifi_required"; "rollback_available"] None);
   ("performance",
    mkConfig (Some ["performance"; "boot"; "latency"; "loadtime"])
      ["component"; "metric"] ["cold_boot"; "heavy_load"] None);
   ("security",
    mkConfig (Some ["security"; "auth"; "permissions"])
      ["user_role"; "action"] ["session_valid"; "encryption_enabled"] None);
   ("robustness",
    mkConfig (Some ["robust"; "stress"; "fault"; "recovery"])
      ["operation"; "fault_type"] ["power_cycle"; "network_disruption"] None)].

(** [config["keywords"]]; every value of the table has the key. *)
Definition config_keywords (config : Config) : list string :=
  match keywords config with Some kws => kws | None => [] end.

(** The dictionary returned when no entry matches. *)
Definition default_config : Config :=
  mkConfig None ["field1"; "field2"] ["toggle1"] (Some []).

(** The loop over [AUTOMOTIVE_SCENARIOS.items()], returning at the first
    entry one of whose keywords occurs in the scenario. *)
Fixpoint first_match (scenario_lower : string) (table : list (string * Config))
  : option Config :=
  match table with
  | [] => None
  | (name, config) :: rest =>
      if existsb (fun keyword => PyStr.contains keyword scenario_lower)
           (config_keywords config)
      then Some config
      else first_match scenario_lower rest
  end.

Definition detect_scenario_fields (scenario : string) : Config :=
  let scenario_lower := PyStr.lower scenario in
  match first_match scenario_lower AUTOMOTIVE_SCENARIOS with
  | Some config => config
  | None => default_config
  end.

(** [a | b] on dictionaries: the items of [b] assigned to a copy of [a]. *)
Definition dict_merge (a b : dict) : dict :=
  fold_left (fun acc kv => dict_set acc (fst kv) (snd kv)) b a.

(** One case: a dictionary with the single key "inputs". *)
Record Case : Type := mkCase { inputs : dict }.

(** [{"inputs": {text_fields[i]: t[i] ...} | {binary_fields[i]: b[i] ...}}];
    a tuple has one state for each field, so indexing pairs the two
    lists position by position. *)

Definition make_case (text_fields binary_fields t b : list string) : Case :=
  mkCase (dict_merge (dict_update_zip [] text_fields t)
                     (dict_update_zip [] binary_fields b)).

(** The inner loop: [if count >= max_cases: break] comes before the case
    is built. *)
Fixpoint inner_loop (max_cases : Z) (text_fields binary_fields t : list string)
  (binary_combos : list (list string)) (st : Z * list Case) : Z * list Case :=
  match binary_combos with
  | [] => st
  | b :: rest =>
      if (fst st >=? max_cases)%Z then st
      else inner_loop max_cases text_fields binary_fields t rest
             ((fst st + 1)%Z, snd st ++ [make_case text_fields binary_fields t b])
  end.

(** The outer loop has no [break] of its own: it visits every text
    tuple, and the inner loop leaves at once when the cap is reached. *)
Fixpoint outer_loop (max_cases : Z) (text_fields binary_fields : list string)
  (text_combos binary_combos : list (list string)) (st : Z * list Case)
  : Z * list Case :=
  match text_combos with
  | [] => st
  | t :: rest =>
      outer_loop max_cases text_fields binary_fields rest binary_combos
        (inner_loop max_cases text_fields binary_fields t binary_combos st)
  end.

Definition generate_combinations (scenario : string) (max_cases : Z)
  : Z * list Case :=
  let config := detect_scenario_fields scenario in
  let text_fields := text_fields config in
  let binary_fields := binary_fields config in
  let text_states := ["Valid"; "Invalid"; "Empty"] in
  let binary_states := ["Checked"; "Unchecked"] in
  let text_combos := product text_states (List.length text_fields) in
  let binary_combos := product binary_states (List.length binary_fields) in
  let total_combinations :=
    (Z.of_nat (List.length text_combos) * Z.of_nat (List.length binary_combos))%Z in
  let '(count, final_cases) :=
    outer_loop max_cases text_fields binary_fields text_combos binary_combos
      (0%Z, []) in
  (total_combinations, final_cases).

End Legacy.

(* ================================================================= *)
(** ** [main.py] *)





(* ================================================================= *)
(** ** Vocabulary for the properties of the code *)

(** Some field of the assignment holds the state. *)
Definition has_state (state : string) (combination : dict) : bool :=
  existsb (fun item => String.eqb (snd item) state) combination.

(** A sensitive field (password, otp, token, in any letter case) that is
    Invalid or Empty. *)
Definition sensitive_failure (item : string * string) : bool :=
  mem (PyStr.lower (fst item)) ["password"; "otp"; "token"]
  && mem (snd item) ["Invalid"; "Empty"].

(** The number of fields that are Invalid. *)
Definition invalid_count (combination : dict) : nat :=
  List.length (filter (fun item => String.eqb (snd item) "Invalid") combination).

(** The condition under which the label Security is given. *)
Definition security_signal (scenario : string) (combination : dict) : bool :=
  security_scenario (PyStr.lower (PyStr.strip scenario))
  && (existsb sensitive_failure combination || (2 <=? invalid_count combination)%nat).

(** The list of labels as one expression of the assignment. *)
Definition labels_of (scenario : string) (combination : dict) : list string :=
  if negb (has_state "Invalid" combination || has_state "Empty" combination)
  then ["Positive"]
  else "Negative"
       :: (if has_state "Empty" combination then ["Validation"; "Edge"] else [])
       ++ (if security_signal scenario combination then ["Security"] else []).

(** The five states a step is written for. *)
Definition known_state (state : string) : bool :=
  mem state (TEXT_STATES ++ BINARY_STATES).


(** No string of the list occurs twice. *)
Fixpoint nodupb (l : list string) : bool :=
  match l with
  | [] => true
  | x :: rest => negb (mem x rest) && nodupb rest
  end.

(** The prefix of the case identifiers, as [generate_combinations]
    derives it from the trimmed scenario. *)
Definition case_id_prefix (scenario : string) : string :=
  PyStr.or_else (PyStr.take 8 (PyStr.replace " " "_" (PyStr.upper scenario)))
    "SCEN".

(** The identifier of the case numbered [n]. *)
Definition case_id (scenario : string) (n : Z) : string :=
  (case_id_prefix scenario ++ "-" ++ PyStr.fmt04d n)%string.

(** The login profile of the field detector. *)
Definition login_profile : list string * list string :=
  (["username"; "password"; "otp"], ["remember_me"; "show_password"]).

(* ================================================================= *)
(** ** The classifier *)

Lemma mem_In (x : string) (xs : list string) : mem x xs = true <-> In x xs.
Proof.
  unfold mem. rewrite existsb_exists. split.
  - intros [y [Hy Heq]]. apply String.eqb_eq in Heq. now subst.
  - intros H. exists x. split; [assumption | apply String.eqb_refl].
Qed.

Lemma mem_not_In (x : string) (xs : list string) : mem x xs = false <-> ~ In x xs.
Proof.
  rewrite <- mem_In. destruct (mem x xs); split; intro; congruence.
Qed.

Lemma mem_app_self (x : string) (xs : list string) : mem x (xs ++ [x]) = true.
Proof.
  unfold mem. rewrite existsb_app. simpl.
  rewrite String.eqb_refl. now rewrite orb_true_r.
Qed.

Lemma security_step_cases (cats : list string) (item : string * string) :
  security_step cats item = cats
  \/ (mem "Security" cats = false
      /\ security_step cats item = cats ++ ["Security"]).
Proof.
  unfold security_step. destruct item as [field state].
  destruct (mem (PyStr.lower field) ["password"; "otp"; "token"]
            && mem state ["Invalid"; "Empty"]); [| now left].
  destruct (mem "Security" cats); cbn [negb]; [now left | now right].
Qed.

(** The loop over the items adds at most the label "Security", and only
    when it is not there yet. *)
Lemma security_loop_cases (combination : dict) (cats : list string) :
  fold_left security_step combination cats = cats
  \/ (mem "Security" cats = false
      /\ fold_left security_step combination cats = cats ++ ["Security"]).
Proof.
  revert cats. induction combination as [| item rest IH]; intros cats.
  - now left.
  - cbn [fold_left].
    destruct (security_step_cases cats item) as [-> | [Hsec ->]]; [apply IH |].
    destruct (IH (cats ++ ["Security"])) as [H | [H _]].
    + right. now split.
    + rewrite mem_app_self in H. discriminate.
Qed.

(** The states of the assignment that are text states, as the classifier
    collects them. *)
Lemma text_states_nil (combination : dict) :
  (forall item, In item combination -> ~ In (snd item) TEXT_STATES) ->
  filter (fun item => mem (snd item) TEXT_STATES) combination = [].
Proof.
  induction combination as [| item rest IH]; intros H; [reflexivity |].
  cbn [filter].
  destruct (mem (snd item) TEXT_STATES) eqn:Hm.
  - apply mem_In in Hm. exfalso. apply (H item); [now left | assumption].
  - apply IH. intros it Hit. apply H. now right.
Qed.

Lemma security_loop_no_text_state (combination : dict) (cats : list string) :
  (forall item, In item combination -> ~ In (snd item) TEXT_STATES) ->
  fold_left security_step combination cats = cats.
Proof.
  revert cats. induction combination as [| [field state] rest IH]; intros cats H.
  - reflexivity.
  - cbn [fold_left]. rewrite <- (IH cats) at 2 by (intros it Hit; apply H; now right).
    f_equal. unfold security_step.
    destruct (mem state ["Invalid"; "Empty"]) eqn:Hm.
    + exfalso. apply (H (field, state)); [now left |].
      apply mem_In in Hm. cbn [snd]. unfold TEXT_STATES.
      destruct Hm as [<- | [<- | []]]; simpl; tauto.
    + now rewrite andb_false_r.
Qed.

(** What every rule preserves: the list built so far is duplicate free
    and holds known labels only; the default makes it non-empty. *)
Lemma categorize_labels_invariant (scenario : string) (combination : dict) :
  _categorize_combination scenario combination <> []
  /\ NoDup (_categorize_combination scenario combination)
  /\ incl (_categorize_combination scenario combination) LABELS.
Proof.
  repeat split;
    unfold _categorize_combination;
    generalize (map snd (filter (fun item => mem (snd item) TEXT_STATES) combination));
    intros ts;
    destruct (negb (is_nil ts) && forallb (fun state => String.eqb state "Valid") ts);
    destruct (existsb (fun state => String.eqb state "Empty") ts);
    destruct (existsb (fun state => String.eqb state "Invalid") ts);
    destruct (security_scenario (PyStr.lower (PyStr.strip scenario)));
    cbn -[count Z.geb];
    try match goal with
        | |- context [fold_left security_step combination ?c] =>
            destruct (security_loop_cases combination c) as [-> | [_ ->]]
        end;
    try destruct (count "Invalid" ts >=? 2)%Z;
    cbn;
    solve [ discriminate
          | repeat constructor; simpl; intuition discriminate
          | unfold LABELS; intros x Hx; simpl in Hx |- *; intuition ].
Qed.

Lemma categorize_labels_nonempty (scenario : string) (combination : dict) :
  _categorize_combination scenario combination <> [].
Proof. apply categorize_labels_invariant. Qed.

Lemma categorize_no_text_state (scenario : string) (combination : dict) :
  (forall item, In item combination -> ~ In (snd item) TEXT_STATES) ->
  _categorize_combination scenario combination = ["Positive"].
Proof.
  intros H. unfold _categorize_combination.
  rewrite (text_states_nil combination H).
  rewrite (security_loop_no_text_state combination _ H).
  cbn. now destruct (security_scenario _).
Qed.

(** C8.  For every scenario and every assignment the classifier returns a
    list of labels that is not empty, has no duplicate, and holds only
    labels among Positive, Negative, Validation, Edge and Security; when
    no rule fires (the assignment holds no text state at all) the list is
    exactly [Positive]. *)
Theorem categorize_labels_wellformed (scenario : string) (combination : dict) :
  let cats := _categorize_combination scenario combination in
  cats <> []
  /\ NoDup cats
  /\ incl cats LABELS
  /\ ((forall item, In item combination -> ~ In (snd item) TEXT_STATES) ->
      cats = ["Positive"]).
Proof.
  cbv zeta.
  destruct (categorize_labels_invariant scenario combination) as [H1 [H2 H3]].
  repeat split; try assumption.
  apply categorize_no_text_state.
Qed.

(** C6.  For the scenario "login" and the assignment username Valid,
    password Empty, otp Valid, remember_me Checked, show_password
    Unchecked, the classifier's list holds Negative, Validation, Edge and
    Security and does not hold Positive. *)
Theorem categorize_login_empty_password :
  let cats :=
    _categorize_combination "login"
      [("username", "Valid"); ("password", "Empty"); ("otp", "Valid");
       ("remember_me", "Checked"); ("show_password", "Unchecked")] in
  In "Negative" cats /\ In "Validation" cats /\ In "Edge" cats
  /\ In "Security" cats /\ ~ In "Positive" cats.
Proof.
  assert (E : _categorize_combination "login"
      [("username", "Valid"); ("password", "Empty"); ("otp", "Valid");
       ("remember_me", "Checked"); ("show_password", "Unchecked")]
      = ["Negative"; "Validation"; "Edge"; "Security"]) by (vm_compute; reflexivity).
  cbv zeta. rewrite E. simpl. intuition discriminate.
Qed.

Lemma binary_state_not_text (state : string) :
  In state BINARY_STATES -> mem state TEXT_STATES = false.
Proof.
  intros [<- | [<- | []]]; reflexivity.
Qed.

Lemma binary_state_not_sensitive (state : string) :
  In state BINARY_STATES -> mem state ["Invalid"; "Empty"] = false.
Proof.
  intros [<- | [<- | []]]; reflexivity.
Qed.

Lemma text_states_binary_variant (a1 a2 : dict) :
  Forall2 binary_variant a1 a2 ->
  map snd (filter (fun item => mem (snd item) TEXT_STATES) a1)
  = map snd (filter (fun item => mem (snd item) TEXT_STATES) a2).
Proof.
  induction 1 as [| [f1 s1] [f2 s2] r1 r2 [Hk Hv] _ IH]; [reflexivity |].
  cbn [fst snd] in Hk, Hv. cbn [filter snd].
  destruct Hv as [<- | [H1 H2]].
  - destruct (mem s1 TEXT_STATES); cbn [map snd]; now rewrite IH.
  - now rewrite (binary_state_not_text _ H1), (binary_state_not_text _ H2).
Qed.

Lemma security_loop_binary_variant (a1 a2 : dict) :
  Forall2 binary_variant a1 a2 ->
  forall cats, fold_left security_step a1 cats = fold_left security_step a2 cats.
Proof.
  induction 1 as [| [f1 s1] [f2 s2] r1 r2 [Hk Hv] _ IH]; intros cats; [reflexivity |].
  cbn [fst snd] in Hk, Hv. subst f2. cbn [fold_left].
  destruct Hv as [<- | [H1 H2]]; [apply IH |].
  unfold security_step at 2 4.
  rewrite (binary_state_not_sensitive _ H1), (binary_state_not_sensitive _ H2).
  rewrite andb_false_r. apply IH.
Qed.

(** C10.  Classification does not depend on the states of binary fields:
    two assignments with the same keys in the same order, whose states
    are equal except where both hold a binary state (Checked or
    Unchecked), get the same list of labels, for every scenario. *)
Theorem categorize_ignores_binary_states (scenario : string) (a1 a2 : dict) :
  Forall2 binary_variant a1 a2 ->
  _categorize_combination scenario a1 = _categorize_combination scenario a2.
Proof.
  intros H. unfold _categorize_combination.
  rewrite (text_states_binary_variant a1 a2 H).
  now rewrite (security_loop_binary_variant a1 a2 H).
Qed.

Lemma categorize_ignores_binary_states_witness :
  _categorize_combination "login"
    [("username", "Invalid"); ("password", "Valid"); ("remember_me", "Checked")]
  = _categorize_combination "login"
      [("username", "Invalid"); ("password", "Valid"); ("remember_me", "Unchecked")].
Proof.
  apply categorize_ignores_binary_states.
  repeat constructor; simpl; tauto.
Defined.

Lemma categorize_labels_wellformed_witness :
  _categorize_combination "login"
    [("remember_me", "Checked"); ("show_password", "Unchecked")] = ["Positive"].
Proof.
  apply (categorize_labels_wellformed "login"
           [("remember_me", "Checked"); ("show_password", "Unchecked")]).
  intros item [<- | [<- | []]]; simpl; intuition discriminate.
Defined.

(* ================================================================= *)
(** ** The expected result *)

(** The five texts are pairwise different, whatever the scenario. *)
Lemma narrative_text_inj (s : string) (v v' : Narrative) :
  narrative_text s v = narrative_text s v' -> v = v'.
Proof.
  destruct v, v'; intros H; try reflexivity; exfalso;
    unfold narrative_text, success_text, validation_text, security_text,
      negative_text, fallback_text in H;
    cbn [String.append] in H; discriminate H.
Qed.

Lemma selects_functional (categories : list string) (v v' : Narrative) :
  selects categories v -> selects categories v' -> v = v'.
Proof.
  intros H H'. destruct H; destruct H'; try reflexivity; exfalso; tauto.
Qed.

Lemma build_expected_result_selects (scenario : string)
  (categories : list string) (combination : dict) :
  exists v,
    selects categories v
    /\ _build_expected_result scenario categories combination
       = narrative_text (PyStr.strip scenario) v.
Proof.
  unfold _build_expected_result.
  destruct (mem "Positive" categories) eqn:Hp;
    destruct (mem "Negative" categories) eqn:Hn;
    destruct (mem "Validation" categories) eqn:Hv;
    destruct (mem "Edge" categories) eqn:He;
    destruct (mem "Security" categories) eqn:Hs;
    cbn [andb orb negb];
    repeat match goal with
           | H : mem _ _ = true |- _ => apply mem_In in H
           | H : mem _ _ = false |- _ => apply mem_not_In in H
           end;
    match goal with
    | |- exists v, _ /\ success_text ?s = _ => exists SuccessNarrative
    | |- exists v, _ /\ validation_text = _ => exists ValidationRejection
    | |- exists v, _ /\ security_text = _ => exists SecurityRejection
    | |- exists v, _ /\ negative_text = _ => exists GenericRejection
    | |- exists v, _ /\ fallback_text ?s = _ => exists CompliantHandling
    end;
    (split; [constructor; tauto | reflexivity]).
Qed.

(** C7.  For every list of categories, hence for every list the
    classifier can return, the expected result is the text of the variant
    selected by the precedence: success when Positive is present and
    neither Negative nor Validation is; else rejection with validation
    messages when Validation or Edge is present; else security rejection
    when Security is present; else generic rejection when Negative is
    present; otherwise compliant handling.  That variant is the only one
    the precedence selects and the only one with this text. *)
Theorem expected_result_by_precedence (scenario : string)
  (categories : list string) (combination : dict) :
  exists v,
    selects categories v
    /\ _build_expected_result scenario categories combination
       = narrative_text (PyStr.strip scenario) v
    /\ (forall v', selects categories v' -> v' = v)
    /\ (forall v',
          _build_expected_result scenario categories combination
          = narrative_text (PyStr.strip scenario) v' -> v' = v).
Proof.
  destruct (build_expected_result_selects scenario categories combination)
    as [v [Hsel Heq]].
  exists v. repeat split; try assumption.
  - intros v' H'. exact (selects_functional categories v' v H' Hsel).
  - intros v' H'. rewrite Heq in H'. symmetry.
    exact (narrative_text_inj _ _ _ H').
Qed.

Lemma expected_result_by_precedence_witness :
  _build_expected_result " login " ["Negative"; "Security"] []
  = narrative_text "login" SecurityRejection.
Proof.
  destruct (expected_result_by_precedence " login " ["Negative"; "Security"] [])
    as [v [_ [Heq [Huniq _]]]].
  rewrite Heq. change (PyStr.strip " login ") with "login". f_equal.
  symmetry. apply Huniq.
  apply sel_security; simpl; intuition discriminate.
Defined.

(** On the lists the classifier returns, one of the first four rules
    always applies: the compliant-handling text is never chosen. *)
Lemma classifier_output_never_falls_back (scenario : string)
  (combination : dict) :
  ~ selects (_categorize_combination scenario combination) CompliantHandling.
Proof.
  destruct (categorize_labels_invariant scenario combination) as [Hne [_ Hincl]].
  intros Hsel. inversion Hsel as [| | | | Hpos Hval Hsec Hneg].
  destruct (_categorize_combination scenario combination) as [| label rest];
    [congruence |].
  assert (Hin : In label (label :: rest)) by now left.
  pose proof (Hincl label Hin) as Hlabel. unfold LABELS in Hlabel.
  cbn [In] in Hlabel.
  destruct Hlabel as [<- | [<- | [<- | [<- | [<- | []]]]]]; tauto.
Qed.

(* ================================================================= *)
(** ** The fixed four-case generator *)

(** C9.  For every request, whatever its platform and its num_cases,
    [generate_scenario_tests] returns exactly four test cases, in order
    titled "<scenario> - happy path" (High), "<scenario> - missing
    required data" (Medium), "<scenario> - invalid data values" (High) and
    "<scenario> - boundary and edge conditions" (Medium), where <scenario>
    is the scenario as the generator uses it, that is, trimmed. *)
Theorem scenario_tests_fixed_four (request : ScenarioRequest.t) :
  let scenario := PyStr.strip (ScenarioRequest.scenario request) in
  let titled := fun tc => (TestCase.title tc, TestCase.priority tc) in
  List.length (generate_scenario_tests request) = 4%nat
  /\ map titled (generate_scenario_tests request)
     = [((scenario ++ " - happy path")%string, "High");
        ((scenario ++ " - missing required data")%string, "Medium");
        ((scenario ++ " - invalid data values")%string, "High");
        ((scenario ++ " - boundary and edge conditions")%string, "Medium")]
  /\ forall platform num_cases,
       map titled
         (generate_scenario_tests
            (ScenarioRequest.mk (ScenarioRequest.scenario request) platform num_cases))
       = map titled (generate_scenario_tests request).
Proof.
  cbv zeta. repeat split.
Qed.

(* ================================================================= *)
(** ** The two loops of [generate_combinations] *)

(** Boolean comparisons on [Z] brought to [Prop] for [lia]. *)
Ltac zbool :=
  repeat match goal with
         | H : (_ >? _)%Z = true |- _ => apply Z.gtb_lt in H
         | H : (_ >? _)%Z = false |- _ => rewrite Z.gtb_ltb, Z.ltb_ge in H
         | H : (_ <=? _)%Z = true |- _ => apply Z.leb_le in H
         | H : (_ <=? _)%Z = false |- _ => apply Z.leb_gt in H
         end.

Section Loops.

Variable env : LoopEnv.

Local Abbreviation max_cases := (CombinationRequest.max_cases (env_req env)).

Lemma emit_app_within (p1 p2 : list (list string * list string)) (c : Z) :
  (c + Z.of_nat (List.length p1) <= max_cases)%Z ->
  emit env (p1 ++ p2) c = emit env p1 c ++ emit env p2 (c + Z.of_nat (List.length p1)).
Proof.
  revert c. induction p1 as [| [t b] p1 IH]; intros c Hc.
  - cbn. now rewrite Z.add_0_r.
  - cbn [List.length] in Hc. cbn [app emit].
    destruct (c + 1 >? max_cases)%Z eqn:Hgt; zbool; [exfalso; lia |].
    cbn [app]. f_equal. rewrite IH by lia. do 2 f_equal. cbn [List.length]. lia.
Qed.

Lemma emit_app_beyond (p1 p2 : list (list string * list string)) (c : Z) :
  (c <= max_cases < c + Z.of_nat (List.length p1))%Z ->
  emit env (p1 ++ p2) c = emit env p1 c.
Proof.
  revert c. induction p1 as [| [t b] p1 IH]; intros c Hc.
  - cbn in Hc. lia.
  - cbn [List.length] in Hc. cbn [app emit].
    destruct (c + 1 >? max_cases)%Z eqn:Hgt; zbool; [reflexivity |].
    f_equal. apply IH. lia.
Qed.

Lemma inner_loop_spec (text_states : list string) (bs : list (list string))
  (c : Z) (acc : list CombinationCase.t) :
  (c <= max_cases)%Z ->
  inner_loop env text_states bs (c, acc)
  = (if (c + Z.of_nat (List.length bs) <=? max_cases)%Z
     then (c + Z.of_nat (List.length bs))%Z else (max_cases + 1)%Z,
     acc ++ emit env (map (pair text_states) bs) c).
Proof.
  revert c acc. induction bs as [| b bs IH]; intros c acc Hc.
  - cbn. rewrite Z.add_0_r, app_nil_r.
    destruct (c <=? max_cases)%Z eqn:E; zbool; [reflexivity | exfalso; lia].
  - cbn [inner_loop map emit List.length fst snd].
    destruct (c + 1 >? max_cases)%Z eqn:Hgt; zbool.
    + rewrite app_nil_r.
      destruct (c + Z.of_nat (S (List.length bs)) <=? max_cases)%Z eqn:E; zbool; [exfalso; lia |].
      f_equal. lia.
    + rewrite IH by lia. rewrite <- app_assoc. cbn [app].
      replace (c + 1 + Z.of_nat (List.length bs))%Z
        with (c + Z.of_nat (S (List.length bs)))%Z by lia.
      reflexivity.
Qed.

Lemma outer_loop_spec (ts bs : list (list string)) (c : Z)
  (acc : list CombinationCase.t) :
  (c <= max_cases)%Z ->
  snd (outer_loop env ts bs (c, acc)) = acc ++ emit env (list_prod ts bs) c.
Proof.
  revert c acc. induction ts as [| t ts IH]; intros c acc Hc.
  - cbn. now rewrite app_nil_r.
  - cbn [outer_loop list_prod]. rewrite inner_loop_spec by assumption.
    cbn [fst].
    destruct (c + Z.of_nat (List.length bs) <=? max_cases)%Z eqn:E; zbool.
    + destruct (c + Z.of_nat (List.length bs) >? max_cases)%Z eqn:Hgt; zbool; [exfalso; lia |].
      rewrite IH by lia. rewrite <- app_assoc. f_equal.
      rewrite emit_app_within by (rewrite length_map; lia).
      now rewrite length_map.
    + destruct (max_cases + 1 >? max_cases)%Z eqn:Hgt; zbool; [| exfalso; lia].
      cbn [snd]. f_equal. symmetry. apply emit_app_beyond.
      rewrite length_map. lia.
Qed.

(** A field of the case that does not depend on its number is the same
    function of the first pairs of tuples, up to the cap. *)
Lemma emit_map {A : Type} (f : CombinationCase.t -> A)
  (g : list string -> list string -> A)
  (pairs : list (list string * list string)) (c : Z) :
  (forall counter t b, f (make_case env counter t b) = g t b) ->
  (c <= max_cases)%Z ->
  map f (emit env pairs c)
  = map (fun p => g (fst p) (snd p)) (firstn (Z.to_nat (max_cases - c)) pairs).
Proof.
  intros Hf. revert c. induction pairs as [| [t b] pairs IH]; intros c Hc.
  - now rewrite firstn_nil.
  - cbn [emit].
    destruct (c + 1 >? max_cases)%Z eqn:Hgt; zbool.
    + replace (max_cases - c)%Z with 0%Z by lia. reflexivity.
    + replace (Z.to_nat (max_cases - c)) with (S (Z.to_nat (max_cases - (c + 1))))
        by lia.
      cbn [firstn map fst snd]. rewrite Hf. f_equal. apply IH. lia.
Qed.

Lemma emit_length (pairs : list (list string * list string)) (c : Z) :
  (c <= max_cases)%Z ->
  List.length (emit env pairs c)
  = Nat.min (Z.to_nat (max_cases - c)) (List.length pairs).
Proof.
  intros Hc.
  rewrite <- (length_map (fun _ => tt) (emit env pairs c)).
  rewrite (emit_map (fun _ => tt) (fun _ _ => tt)) by auto.
  now rewrite length_map, length_firstn.
Qed.

End Loops.

(* ================================================================= *)
(** ** [generate_combinations]: fields, total and count *)

Lemma flat_map_length_uniform {A B : Type} (f : A -> list B) (m : nat)
  (xs : list A) :
  (forall x, List.length (f x) = m) ->
  List.length (flat_map f xs) = (List.length xs * m)%nat.
Proof.
  intros Hf. induction xs as [| x xs IH]; [reflexivity |].
  cbn [flat_map List.length]. rewrite length_app, Hf, IH. lia.
Qed.

Lemma product_length (xs : list string) (n : nat) :
  List.length (product xs n) = (List.length xs ^ n)%nat.
Proof.
  induction n as [| n IH]; [reflexivity |].
  cbn [product]. rewrite (flat_map_length_uniform _ (List.length xs ^ n)%nat).
  - cbn [Nat.pow]. reflexivity.
  - intros x. now rewrite length_map.
Qed.

Lemma state_pairs_length (tf bf : list string) :
  List.length (state_pairs tf bf)
  = (3 ^ List.length tf * 2 ^ List.length bf)%nat.
Proof.
  unfold state_pairs. rewrite length_prod, !product_length. reflexivity.
Qed.

(** The guard [if n > 0 ... else [()]] changes nothing: the product with
    [repeat=0] is the single empty tuple already. *)
Lemma product_guard (xs : list string) (fields : list string) :
  (if (Z.of_nat (List.length fields) >? 0)%Z
   then product xs (Z.to_nat (Z.of_nat (List.length fields)))
   else [[]])
  = product xs (List.length fields).
Proof.
  rewrite Nat2Z.id. destruct fields; [reflexivity |].
  destruct (Z.of_nat (List.length (s :: fields)) >? 0)%Z eqn:E; zbool;
    [reflexivity | cbn [List.length] in E; exfalso; lia].
Qed.

Lemma generate_text_fields (req : CombinationRequest.t) :
  CombinationResponse.text_fields (generate_combinations req)
  = fst (resolve_fields req).
Proof.
  unfold generate_combinations. destruct (resolve_fields req) as [tf bf].
  now destruct (outer_loop _ _ _ _).
Qed.

Lemma generate_binary_fields (req : CombinationRequest.t) :
  CombinationResponse.binary_fields (generate_combinations req)
  = snd (resolve_fields req).
Proof.
  unfold generate_combinations. destruct (resolve_fields req) as [tf bf].
  now destruct (outer_loop _ _ _ _).
Qed.

Lemma generate_total (req : CombinationRequest.t) :
  CombinationResponse.total_combinations (generate_combinations req)
  = _compute_total_combinations
      (Z.of_nat (List.length (fst (resolve_fields req))))
      (Z.of_nat (List.length (snd (resolve_fields req)))).
Proof.
  unfold generate_combinations. destruct (resolve_fields req) as [tf bf].
  now destruct (outer_loop _ _ _ _).
Qed.

Lemma generate_returned_count (req : CombinationRequest.t) :
  CombinationResponse.returned_count (generate_combinations req)
  = Z.of_nat (List.length (CombinationResponse.cases (generate_combinations req))).
Proof.
  unfold generate_combinations. destruct (resolve_fields req) as [tf bf].
  now destruct (outer_loop _ _ _ _).
Qed.

(** The cases of the response are what the loops emit from the pairs of
    tuples, starting with the counter at zero. *)
Lemma generate_cases (req : CombinationRequest.t) :
  (0 <= CombinationRequest.max_cases req)%Z ->
  CombinationResponse.cases (generate_combinations req)
  = emit (loop_env req)
      (state_pairs (fst (resolve_fields req)) (snd (resolve_fields req))) 0.
Proof.
  intros Hmax. unfold generate_combinations, loop_env, state_pairs.
  destruct (resolve_fields req) as [tf bf]. cbn [fst snd].
  rewrite !product_guard.
  match goal with
  | |- context [outer_loop ?e ?ts ?bs ?st] =>
      pose proof (outer_loop_spec e ts bs 0 [] Hmax) as Hspec;
      destruct (outer_loop e ts bs st) as [counter cases]
  end.
  cbn [snd app] in Hspec. cbn [CombinationResponse.cases]. exact Hspec.
Qed.

Lemma total_as_nat (t b : nat) :
  _compute_total_combinations (Z.of_nat t) (Z.of_nat b)
  = Z.of_nat (3 ^ t * 2 ^ b).
Proof.
  unfold _compute_total_combinations.
  now rewrite Nat2Z.inj_mul, !Nat2Z.inj_pow.
Qed.

Lemma generate_count_min (req : CombinationRequest.t) :
  (0 <= CombinationRequest.max_cases req)%Z ->
  CombinationResponse.returned_count (generate_combinations req)
  = Z.min (CombinationResponse.total_combinations (generate_combinations req))
          (CombinationRequest.max_cases req).
Proof.
  intros Hmax.
  rewrite generate_returned_count, generate_total, generate_cases by assumption.
  rewrite emit_length by (unfold loop_env; cbn [env_req]; assumption).
  rewrite state_pairs_length, total_as_nat.
  unfold loop_env. cbn [env_req]. lia.
Qed.

(** C1.  For every valid request the response's returned_count is the
    minimum of total_combinations and max_cases, the list of cases has
    exactly that length, and returned_count is total_combinations as soon
    as max_cases is at least total_combinations. *)
Theorem returned_count_is_min (req : CombinationRequest.t) :
  CombinationRequest.valid req ->
  let resp := generate_combinations req in
  CombinationResponse.returned_count resp
  = Z.min (CombinationResponse.total_combinations resp)
          (CombinationRequest.max_cases req)
  /\ Z.of_nat (List.length (CombinationResponse.cases resp))
     = CombinationResponse.returned_count resp
  /\ ((CombinationRequest.max_cases req
       >= CombinationResponse.total_combinations resp)%Z ->
      CombinationResponse.returned_count resp
      = CombinationResponse.total_combinations resp).
Proof.
  intros [_ [Hlo _]]. cbv zeta.
  assert (H := generate_count_min req ltac:(lia)).
  repeat split.
  - exact H.
  - symmetry. apply generate_returned_count.
  - intros Hge. rewrite H. lia.
Qed.

Lemma returned_count_is_min_witness :
  CombinationResponse.returned_count
    (generate_combinations (CombinationRequest.mk "logout" web None None 200))
  = CombinationResponse.total_combinations
      (generate_combinations (CombinationRequest.mk "logout" web None None 200)).
Proof.
  apply (returned_count_is_min (CombinationRequest.mk "logout" web None None 200)).
  - unfold CombinationRequest.valid. simpl. lia.
  - vm_compute. discriminate.
Defined.

(** C2.  The reported total_combinations is the integer 3^t * 2^b for the
    t text fields and b binary fields of the resolved field model, in
    unbounded integer arithmetic; it is the number of pairs of tuples the
    loops range over, and it does not change with max_cases. *)
Theorem total_combinations_exact (req : CombinationRequest.t) :
  let resp := generate_combinations req in
  let t := List.length (CombinationResponse.text_fields resp) in
  let b := List.length (CombinationResponse.binary_fields resp) in
  CombinationResponse.total_combinations resp = (3 ^ Z.of_nat t * 2 ^ Z.of_nat b)%Z
  /\ CombinationResponse.total_combinations resp
     = Z.of_nat (List.length
                   (state_pairs (CombinationResponse.text_fields resp)
                                (CombinationResponse.binary_fields resp)))
  /\ forall m,
       CombinationResponse.total_combinations
         (generate_combinations (CombinationRequest.with_max_cases req m))
       = CombinationResponse.total_combinations resp.
Proof.
  cbv zeta. rewrite generate_text_fields, generate_binary_fields, generate_total.
  repeat split.
  - rewrite state_pairs_length. apply total_as_nat.
  - intros m. now rewrite generate_total.
Qed.

(** C5.  For the scenario "login" with no explicit field and max_cases
    100, on any platform, the response has the text fields username,
    password, otp, the binary fields remember_me, show_password,
    total_combinations 108 and returned_count 100. *)
Theorem login_hundred_cases (platform : Platform) :
  let resp :=
    generate_combinations (CombinationRequest.mk "login" platform None None 100) in
  CombinationResponse.text_fields resp = ["username"; "password"; "otp"]
  /\ CombinationResponse.binary_fields resp = ["remember_me"; "show_password"]
  /\ CombinationResponse.total_combinations resp = 108%Z
  /\ CombinationResponse.total_combinations resp = (3 ^ 3 * 2 ^ 2)%Z
  /\ CombinationResponse.returned_count resp = 100%Z.
Proof.
  cbv zeta.
  rewrite generate_count_min by (cbn; lia).
  rewrite generate_text_fields, generate_binary_fields, generate_total.
  repeat split.
Qed.

(* ================================================================= *)
(** ** The order of the enumeration *)

Lemma nth_error_flat_map_uniform {A B : Type} (f : A -> list B) (m : nat)
  (xs : list A) (k : nat) (d : A) :
  (forall x, List.length (f x) = m) ->
  (k < List.length xs * m)%nat ->
  nth_error (flat_map f xs) k = nth_error (f (nth (k / m) xs d)) (k mod m).
Proof.
  intros Hf. revert k. induction xs as [| x xs IH]; intros k Hk.
  - cbn in Hk. lia.
  - cbn [flat_map]. cbn [List.length] in Hk.
    assert (Hm : m <> 0%nat) by (destruct m; lia).
    destruct (Nat.lt_ge_cases k m) as [Hlt | Hge].
    + rewrite nth_error_app1 by (rewrite Hf; lia).
      now rewrite Nat.div_small, Nat.mod_small by lia.
    + rewrite nth_error_app2 by (rewrite Hf; lia).
      rewrite Hf, IH by lia.
      replace k with ((k - m) + 1 * m)%nat at 3 4 by lia.
      rewrite Nat.div_add, Nat.Div0.mod_add by lia.
      replace ((k - m) / m + 1)%nat with (S ((k - m) / m)) by lia.
      reflexivity.
Qed.

Lemma digit_of_remainder (b i n j : nat) :
  (j < n)%nat -> b <> 0%nat ->
  (((i mod b ^ n) / b ^ (n - 1 - j)) mod b = (i / b ^ (n - 1 - j)) mod b)%nat.
Proof.
  intros Hj Hb.
  assert (Ha : (b ^ (n - 1 - j))%nat <> 0%nat) by (apply Nat.pow_nonzero; exact Hb).
  replace n with ((n - 1 - j) + S j)%nat at 1 by lia.
  rewrite Nat.pow_add_r.
  rewrite (Nat.Div0.mod_mul_r i (b ^ (n - 1 - j)) (b ^ S j)).
  rewrite (Nat.mul_comm (b ^ (n - 1 - j))), Nat.add_comm.
  rewrite Nat.div_add_l by exact Ha.
  rewrite (Nat.div_small (i mod _)) by (apply Nat.mod_upper_bound; exact Ha).
  rewrite Nat.add_0_r. cbn [Nat.pow].
  rewrite (Nat.Div0.mod_mul_r (i / b ^ (n - 1 - j)) b (b ^ j)).
  rewrite (Nat.mul_comm b), Nat.Div0.mod_add.
  apply Nat.Div0.mod_mod.
Qed.

Lemma digit_tuple_S (xs : list string) (n i : nat) :
  xs <> [] ->
  (i < List.length xs ^ S n)%nat ->
  digit_tuple xs (S n) i
  = nth (i / List.length xs ^ n) xs ""
    :: digit_tuple xs n (i mod List.length xs ^ n).
Proof.
  intros Hxs Hi. unfold digit_tuple.
  assert (Hb : List.length xs <> 0%nat) by (destruct xs; [congruence | discriminate]).
  cbn [seq map]. f_equal.
  - replace (S n - 1 - 0)%nat with n by lia.
    rewrite Nat.mod_small; [reflexivity |].
    apply Nat.Div0.div_lt_upper_bound. cbn [Nat.pow] in Hi. lia.
  - rewrite <- seq_shift, map_map. apply map_ext_in. intros j Hj.
    apply in_seq in Hj.
    replace (S n - 1 - S j)%nat with (n - 1 - j)%nat by lia.
    now rewrite digit_of_remainder by lia.
Qed.

Lemma digit_tuple_length (xs : list string) (n i : nat) :
  List.length (digit_tuple xs n i) = n.
Proof.
  unfold digit_tuple. now rewrite length_map, length_seq.
Qed.

(** The tuple at position [i] of the product holds the digits of [i]. *)
Lemma product_nth (xs : list string) (n i : nat) :
  xs <> [] ->
  (i < List.length xs ^ n)%nat ->
  nth_error (product xs n) i = Some (digit_tuple xs n i).
Proof.
  intros Hxs. revert i. induction n as [| n IH]; intros i Hi.
  - cbn in Hi. replace i with 0%nat by lia. reflexivity.
  - cbn [product].
    assert (Hb : List.length xs <> 0%nat) by (destruct xs; [congruence | discriminate]).
    assert (Hp : (List.length xs ^ n)%nat <> 0%nat) by (apply Nat.pow_nonzero; exact Hb).
    rewrite (nth_error_flat_map_uniform _ (List.length xs ^ n)%nat _ _ "").
    + rewrite nth_error_map, IH by (apply Nat.mod_upper_bound; exact Hp).
      cbn [option_map]. now rewrite digit_tuple_S.
    + intros x. now rewrite length_map, product_length.
    + cbn [Nat.pow] in Hi. lia.
Qed.

Lemma list_prod_flat_map {A B : Type} (ts : list A) (bs : list B) :
  list_prod ts bs = flat_map (fun x => map (pair x) bs) ts.
Proof.
  induction ts as [| x ts IH]; [reflexivity |]. cbn. now rewrite IH.
Qed.

Lemma list_prod_nth {A B : Type} (ts : list A) (bs : list B) (k : nat)
  (t : A) (b : B) :
  (k < List.length ts * List.length bs)%nat ->
  nth_error (list_prod ts bs) k
  = Some (nth (k / List.length bs) ts t, nth (k mod List.length bs) bs b).
Proof.
  intros Hk.
  assert (Hb : List.length bs <> 0%nat) by (destruct bs; cbn in *; lia).
  rewrite list_prod_flat_map.
  rewrite (nth_error_flat_map_uniform _ (List.length bs) _ _ t)
    by (try (intros x; apply length_map); exact Hk).
  rewrite nth_error_map.
  rewrite (nth_error_nth' bs b) by (apply Nat.mod_upper_bound; exact Hb).
  reflexivity.
Qed.

(** The pair of tuples at position [k]: the text tuple is the quotient of
    [k] by the number of binary tuples, the binary tuple its remainder. *)
Lemma state_pairs_nth (tf bf : list string) (k : nat) :
  (k < 3 ^ List.length tf * 2 ^ List.length bf)%nat ->
  nth_error (state_pairs tf bf) k
  = Some (digit_tuple TEXT_STATES (List.length tf) (k / 2 ^ List.length bf),
          digit_tuple BINARY_STATES (List.length bf) (k mod 2 ^ List.length bf)).
Proof.
  intros Hk. unfold state_pairs.
  assert (H2 : (2 ^ List.length bf)%nat <> 0%nat) by (apply Nat.pow_nonzero; lia).
  rewrite (list_prod_nth _ _ k [] []) by (rewrite !product_length; exact Hk).
  rewrite !product_length. cbn [List.length TEXT_STATES BINARY_STATES].
  f_equal. f_equal.
  - apply nth_error_nth. apply product_nth; [discriminate |].
    cbn [List.length TEXT_STATES].
    apply Nat.Div0.div_lt_upper_bound. lia.
  - apply nth_error_nth. apply product_nth; [discriminate |].
    cbn [List.length BINARY_STATES].
    apply Nat.mod_upper_bound. exact H2.
Qed.

(* ================================================================= *)
(** ** Assignments as dictionaries *)

Lemma dict_set_fresh (d : dict) (k v : string) :
  ~ In k (dict_keys d) -> dict_set d k v = d ++ [(k, v)].
Proof.
  induction d as [| [k' v'] d IH]; intros Hk; [reflexivity |].
  cbn [dict_set app]. cbn [dict_keys map fst In] in Hk.
  destruct (String.eqb k' k) eqn:E.
  - apply String.eqb_eq in E. tauto.
  - f_equal. apply IH. unfold dict_keys. tauto.
Qed.

Lemma dict_update_zip_fresh (ks vs : list string) (d : dict) :
  NoDup (dict_keys d ++ ks) ->
  dict_update_zip d ks vs = d ++ combine ks vs.
Proof.
  unfold dict_update_zip.
  revert vs d. induction ks as [| k ks IH]; intros vs d Hnd.
  - cbn. now rewrite app_nil_r.
  - destruct vs as [| v vs]; [cbn; now rewrite app_nil_r |].
    cbn [combine fold_left fst snd].
    rewrite dict_set_fresh.
    + rewrite IH; [now rewrite <- app_assoc |].
      unfold dict_keys. rewrite map_app, <- app_assoc. exact Hnd.
    + apply NoDup_remove_2 in Hnd. intros Hin. apply Hnd.
      apply in_or_app. now left.
Qed.

Lemma map_fst_combine (ks vs : list string) :
  List.length ks = List.length vs -> map fst (combine ks vs) = ks.
Proof.
  revert vs. induction ks as [| k ks IH]; intros [| v vs] H;
    try reflexivity; try discriminate.
  cbn. f_equal. apply IH. now injection H.
Qed.

(** With pairwise different names, the assignment lists the text fields
    and then the binary fields, each with its state. *)
Lemma build_combination_fresh (tf bf ts bs : list string) :
  NoDup (tf ++ bf) ->
  List.length ts = List.length tf ->
  build_combination tf bf ts bs = combine tf ts ++ combine bf bs.
Proof.
  intros Hnd Hts. unfold build_combination.
  rewrite (dict_update_zip_fresh tf ts [])
    by (cbn; exact (NoDup_app_remove_r _ _ Hnd)).
  cbn [app]. apply dict_update_zip_fresh.
  unfold dict_keys. now rewrite map_fst_combine.
Qed.

(** At position zero every digit is zero: every field gets the first
    state of its list. *)
Lemma digit_tuple_zero (xs : list string) (n : nat) :
  xs <> [] ->
  digit_tuple xs n 0 = repeat (nth 0 xs "") n.
Proof.
  intros Hxs. unfold digit_tuple.
  assert (Hb : List.length xs <> 0%nat) by (destruct xs; [congruence | discriminate]).
  assert (E : forall m, map (fun j => nth ((0 / List.length xs ^ (n - 1 - j))
                          mod List.length xs) xs "") (seq m n)
              = repeat (nth 0 xs "") n).
  { induction n as [| n' IH] in |- *; intros m; [reflexivity |].
    cbn [seq map repeat]. rewrite Nat.Div0.div_0_l, Nat.Div0.mod_0_l. f_equal.
    rewrite <- (IH (S m)). apply map_ext. intros j.
    now rewrite !Nat.Div0.div_0_l. }
  apply E.
Qed.

Lemma case_combination (env : LoopEnv) (counter : Z) (t b : list string) :
  CombinationCase.combination (make_case env counter t b)
  = build_combination (env_text_fields env) (env_binary_fields env) t b.
Proof. reflexivity. Qed.

(** The assignments of the response: one per pair of tuples, in the order
    of [state_pairs], cut at [max_cases]. *)
Lemma generate_assignments (req : CombinationRequest.t) :
  (0 <= CombinationRequest.max_cases req)%Z ->
  map CombinationCase.combination
    (CombinationResponse.cases (generate_combinations req))
  = map (fun p => build_combination (fst (resolve_fields req))
                    (snd (resolve_fields req)) (fst p) (snd p))
      (firstn (Z.to_nat (CombinationRequest.max_cases req))
         (state_pairs (fst (resolve_fields req)) (snd (resolve_fields req)))).
Proof.
  intros Hmax. rewrite generate_cases by assumption.
  rewrite (emit_map (loop_env req) CombinationCase.combination
             (build_combination (fst (resolve_fields req))
                (snd (resolve_fields req)))).
  - unfold loop_env. cbn [env_req]. now rewrite Z.sub_0_r.
  - intros counter t b. apply case_combination.
  - unfold loop_env. cbn [env_req]. exact Hmax.
Qed.

Lemma dict_keys_set (d : dict) (k v : string) :
  dict_keys (dict_set d k v)
  = if mem k (dict_keys d) then dict_keys d else dict_keys d ++ [k].
Proof.
  induction d as [| [k' v'] d IH]; [reflexivity |].
  cbn [dict_set dict_keys map fst mem existsb].
  rewrite (String.eqb_sym k k').
  destruct (String.eqb k' k); cbn [orb map fst]; [reflexivity |].
  fold (dict_keys d). fold (dict_keys (dict_set d k v)). fold (mem k (dict_keys d)).
  rewrite IH. now destruct (mem k (dict_keys d)).
Qed.

Lemma dict_keys_update_zip (ks vs : list string) (d : dict) :
  List.length ks = List.length vs ->
  dict_keys (dict_update_zip d ks vs) = add_names (dict_keys d) ks.
Proof.
  unfold dict_update_zip.
  revert vs d. induction ks as [| k ks IH]; intros [| v vs] d Hlen;
    try reflexivity; try discriminate.
  cbn [combine fold_left fst snd add_names].
  rewrite IH by (now injection Hlen). now rewrite dict_keys_set.
Qed.

Lemma add_names_app (seen l1 l2 : list string) :
  add_names seen (l1 ++ l2) = add_names (add_names seen l1) l2.
Proof.
  revert seen. induction l1 as [| x l1 IH]; intros seen; [reflexivity |].
  cbn [app add_names]. apply IH.
Qed.

Lemma add_names_fresh (seen names : list string) :
  NoDup (seen ++ names) -> add_names seen names = seen ++ names.
Proof.
  revert seen. induction names as [| x names IH]; intros seen Hnd.
  - now rewrite app_nil_r.
  - cbn [add_names].
    assert (Hx : mem x seen = false).
    { apply mem_not_In. intros Hin. apply NoDup_remove_2 in Hnd.
      apply Hnd. apply in_or_app. now left. }
    rewrite Hx, IH; rewrite <- app_assoc; [reflexivity | exact Hnd].
Qed.

(** The keys of an assignment, whatever the names. *)
Lemma build_combination_keys (tf bf ts bs : list string) :
  List.length tf = List.length ts ->
  List.length bf = List.length bs ->
  dict_keys (build_combination tf bf ts bs) = first_occurrences (tf ++ bf).
Proof.
  intros Ht Hb. unfold build_combination, first_occurrences.
  now rewrite add_names_app, !dict_keys_update_zip.
Qed.

Lemma dict_get_set (d : dict) (k v f : string) :
  dict_get (dict_set d k v) f
  = if String.eqb k f then Some v else dict_get d f.
Proof.
  induction d as [| [k' v'] d IH].
  - reflexivity.
  - cbn [dict_set dict_get].
    destruct (String.eqb k' k) eqn:Ek; cbn [dict_get].
    + apply String.eqb_eq in Ek. subst k'. now destruct (String.eqb k f).
    + destruct (String.eqb k' f) eqn:Ef; [| exact IH].
      apply String.eqb_eq in Ef. subst k'.
      rewrite String.eqb_sym in Ek. now rewrite Ek.
Qed.

Lemma dict_get_update_zip_other (ks vs : list string) (d : dict) (f : string) :
  ~ In f ks -> dict_get (dict_update_zip d ks vs) f = dict_get d f.
Proof.
  unfold dict_update_zip.
  revert vs d. induction ks as [| k ks IH]; intros [| v vs] d Hf; try reflexivity.
  cbn [combine fold_left fst snd].
  rewrite IH by (intros H; apply Hf; now right).
  rewrite dict_get_set.
  destruct (String.eqb k f) eqn:E; [| reflexivity].
  apply String.eqb_eq in E. exfalso. apply Hf. now left.
Qed.

Lemma dict_get_update_zip_repeat (ks : list string) (v : string) (d : dict)
  (f : string) :
  In f ks ->
  dict_get (dict_update_zip d ks (repeat v (List.length ks))) f = Some v.
Proof.
  revert d. induction ks as [| k ks IH]; intros d Hf; [destruct Hf |].
  destruct (in_dec string_dec f ks) as [Hin | Hout].
  - exact (IH (dict_set d k v) Hin).
  - destruct Hf as [-> | Hf]; [| contradiction].
    change (dict_get (dict_update_zip (dict_set d f v) ks
                        (repeat v (List.length ks))) f = Some v).
    rewrite dict_get_update_zip_other by exact Hout.
    now rewrite dict_get_set, String.eqb_refl.
Qed.

(** In the assignment at position zero every binary field is Checked, and
    every text field that is not a binary field as well is Valid. *)
Lemma first_assignment_binary (tf bf : list string) (f : string) :
  In f bf ->
  dict_get (build_combination tf bf
              (digit_tuple TEXT_STATES (List.length tf) 0)
              (digit_tuple BINARY_STATES (List.length bf) 0)) f
  = Some "Checked".
Proof.
  intros Hf. unfold build_combination.
  rewrite (digit_tuple_zero BINARY_STATES) by discriminate.
  now apply dict_get_update_zip_repeat.
Qed.

Lemma first_assignment_text (tf bf : list string) (f : string) :
  In f tf -> ~ In f bf ->
  dict_get (build_combination tf bf
              (digit_tuple TEXT_STATES (List.length tf) 0)
              (digit_tuple BINARY_STATES (List.length bf) 0)) f
  = Some "Valid".
Proof.
  intros Hf Hnb. unfold build_combination.
  rewrite dict_get_update_zip_other by exact Hnb.
  rewrite (digit_tuple_zero TEXT_STATES) by discriminate.
  now apply dict_get_update_zip_repeat.
Qed.

(** The assignment at position [k], whatever the names. *)
Lemma generate_assignment_nth (req : CombinationRequest.t) (k : nat) :
  (0 <= CombinationRequest.max_cases req)%Z ->
  (Z.of_nat k < CombinationResponse.returned_count (generate_combinations req))%Z ->
  let tf := fst (resolve_fields req) in
  let bf := snd (resolve_fields req) in
  nth_error
    (map CombinationCase.combination
       (CombinationResponse.cases (generate_combinations req))) k
  = Some (build_combination tf bf
            (digit_tuple TEXT_STATES (List.length tf) (k / 2 ^ List.length bf))
            (digit_tuple BINARY_STATES (List.length bf) (k mod 2 ^ List.length bf))).
Proof.
  intros Hmax Hk. cbv zeta.
  rewrite generate_count_min, generate_total, total_as_nat in Hk by assumption.
  rewrite generate_assignments, nth_error_map, nth_error_firstn by assumption.
  destruct (Nat.ltb_spec k (Z.to_nat (CombinationRequest.max_cases req)));
    [| exfalso; lia].
  now rewrite state_pairs_nth by lia.
Qed.

Lemma generate_first_position (req : CombinationRequest.t) :
  (1 <= CombinationRequest.max_cases req)%Z ->
  (Z.of_nat 0 < CombinationResponse.returned_count (generate_combinations req))%Z.
Proof.
  intros Hmax.
  rewrite generate_count_min, generate_total, total_as_nat by lia.
  assert ((3 ^ List.length (fst (resolve_fields req))
           * 2 ^ List.length (snd (resolve_fields req)))%nat <> 0%nat)
    by (apply Nat.neq_mul_0; split; apply Nat.pow_nonzero; lia).
  lia.
Qed.

(** C3 (amended).  For every valid request, the assignment emitted at
    position [k] is built, text fields first and binary fields next in
    declaration order, from the tuple of text states that holds the
    base-3 digits of [k / 2^b] over Valid, Invalid, Empty and the tuple
    of binary states that holds the base-2 digits of [k mod 2^b] over
    Checked, Unchecked, the first declared field being the most
    significant: text tuples run in the outer loop, binary tuples in the
    inner one, later fields varying fastest.  The keys of every
    assignment are the names of the text fields followed by those of the
    binary fields, in the order of their first occurrence; when the names
    are pairwise different the assignment is the list of the text fields
    with their states followed by the binary fields with theirs.  The
    first assignment maps every binary field to Checked, and every text
    field that is not also a binary field to Valid. *)
Theorem enumeration_order (req : CombinationRequest.t) :
  CombinationRequest.valid req ->
  let resp := generate_combinations req in
  let tf := CombinationResponse.text_fields resp in
  let bf := CombinationResponse.binary_fields resp in
  let t := List.length tf in
  let b := List.length bf in
  let assignments :=
    map CombinationCase.combination (CombinationResponse.cases resp) in
  (forall k,
     (Z.of_nat k < CombinationResponse.returned_count resp)%Z ->
     nth_error assignments k
     = Some (build_combination tf bf
               (digit_tuple TEXT_STATES t (k / 2 ^ b))
               (digit_tuple BINARY_STATES b (k mod 2 ^ b))))
  /\ (forall a, In a assignments -> dict_keys a = first_occurrences (tf ++ bf))
  /\ (NoDup (tf ++ bf) ->
      first_occurrences (tf ++ bf) = tf ++ bf
      /\ forall k,
           (Z.of_nat k < CombinationResponse.returned_count resp)%Z ->
           nth_error assignments k = Some (assignment_at tf bf k))
  /\ (exists first,
        hd_error assignments = Some first
        /\ (forall f, In f bf -> dict_get first f = Some "Checked")
        /\ (forall f, In f tf -> ~ In f bf -> dict_get first f = Some "Valid")).
Proof.
  intros [_ [Hlo _]]. cbv zeta.
  rewrite generate_text_fields, generate_binary_fields.
  assert (Hmax : (0 <= CombinationRequest.max_cases req)%Z) by lia.
  assert (Hnth := fun k => generate_assignment_nth req k Hmax). cbv zeta in Hnth.
  split; [exact Hnth |]. split; [| split].
  - intros a Hin. apply In_nth_error in Hin as [k Hk].
    assert (Hlt : (k < List.length (map CombinationCase.combination
                      (CombinationResponse.cases (generate_combinations req))))%nat).
    { apply nth_error_Some. congruence. }
    rewrite length_map in Hlt.
    rewrite Hnth in Hk by (rewrite generate_returned_count; lia).
    injection Hk as <-.
    now apply build_combination_keys; rewrite digit_tuple_length.
  - intros Hnd. split.
    + exact (add_names_fresh [] _ Hnd).
    + intros k Hk. rewrite Hnth by exact Hk. f_equal.
      apply build_combination_fresh; [exact Hnd | apply digit_tuple_length].
  - eexists. split; [| split].
    + rewrite <- (Hnth 0%nat) by (apply generate_first_position; lia).
      now destruct (map _ _).
    + rewrite Nat.Div0.div_0_l, Nat.Div0.mod_0_l.
      intros f Hf. now apply first_assignment_binary.
    + rewrite Nat.Div0.div_0_l, Nat.Div0.mod_0_l.
      intros f Hf Hnb. now apply first_assignment_text.
Qed.

Lemma enumeration_order_witness :
  let req := CombinationRequest.mk "login" web None None 100 in
  let assignments :=
    map CombinationCase.combination
      (CombinationResponse.cases (generate_combinations req)) in
  nth_error assignments 7
  = Some [("username", "Valid"); ("password", "Valid"); ("otp", "Invalid");
          ("remember_me", "Unchecked"); ("show_password", "Unchecked")]
  /\ exists first,
       hd_error assignments = Some first
       /\ dict_get first "otp" = Some "Valid"
       /\ dict_get first "show_password" = Some "Checked".
Proof.
  cbv zeta.
  assert (Hvalid : CombinationRequest.valid
                     (CombinationRequest.mk "login" web None None 100))
    by (unfold CombinationRequest.valid; simpl; lia).
  destruct (enumeration_order _ Hvalid)
    as [_ [_ [Hdistinct [first [Hhd [Hbin Htext]]]]]].
  split.
  - destruct Hdistinct as [_ Hnth].
    + vm_compute. repeat constructor; simpl; intuition discriminate.
    + rewrite (Hnth 7%nat) by (vm_compute; reflexivity).
      vm_compute. reflexivity.
  - exists first. split; [exact Hhd | split].
    + apply Htext.
      * vm_compute. tauto.
      * vm_compute. intros [H | [H | []]]; discriminate H.
    + apply Hbin. vm_compute. tauto.
Defined.

(** C3, as stated, fails when a name is both a text field and a binary
    field: the later assignment of the binary state overwrites the text
    state, so the first emitted assignment does not map that text field
    to Valid. *)
Lemma first_assignment_name_collision :
  let req := CombinationRequest.mk "form" web (Some ["a"]) (Some ["a"]) 200 in
  let resp := generate_combinations req in
  let assignments :=
    map CombinationCase.combination (CombinationResponse.cases resp) in
  CombinationRequest.valid req
  /\ CombinationResponse.text_fields resp = ["a"]
  /\ CombinationResponse.binary_fields resp = ["a"]
  /\ hd_error assignments = Some [("a", "Checked")]
  /\ ~ (forall first,
          hd_error assignments = Some first ->
          forall f, In f (CombinationResponse.text_fields resp) ->
                    dict_get first f = Some "Valid").
Proof.
  cbv zeta.
  assert (Hhd : hd_error
            (map CombinationCase.combination
               (CombinationResponse.cases
                  (generate_combinations
                     (CombinationRequest.mk "form" web (Some ["a"]) (Some ["a"]) 200))))
          = Some [("a", "Checked")]) by (vm_compute; reflexivity).
  split; [unfold CombinationRequest.valid; simpl; lia |].
  split; [vm_compute; reflexivity |].
  split; [vm_compute; reflexivity |].
  split; [exact Hhd |].
  intros H. specialize (H _ Hhd "a").
  assert (Hin : In "a"
            (CombinationResponse.text_fields
               (generate_combinations
                  (CombinationRequest.mk "form" web (Some ["a"]) (Some ["a"]) 200))))
    by (vm_compute; tauto).
  specialize (H Hin). vm_compute in H. discriminate H.
Qed.

(* ================================================================= *)
(** ** Scenarios that match no profile *)

Lemma categorize_input_valid (scenario : string) :
  _categorize_combination scenario [("input", "Valid")] = ["Positive"].
Proof.
  unfold _categorize_combination. cbn. now destruct (security_scenario _).
Qed.

Lemma categorize_input_invalid (scenario : string) :
  _categorize_combination scenario [("input", "Invalid")] = ["Negative"].
Proof.
  unfold _categorize_combination. cbn. now destruct (security_scenario _).
Qed.

Lemma categorize_input_empty (scenario : string) :
  _categorize_combination scenario [("input", "Empty")]
  = ["Negative"; "Validation"; "Edge"].
Proof.
  unfold _categorize_combination. cbn. now destruct (security_scenario _).
Qed.

Lemma categorize_empty_assignment (scenario : string) :
  _categorize_combination scenario [] = ["Positive"].
Proof.
  unfold _categorize_combination. cbn. now destruct (security_scenario _).
Qed.

Lemma resolve_fields_unmatched (req : CombinationRequest.t) :
  no_explicit_fields req ->
  detect_fields_for_scenario (CombinationRequest.scenario req) = ([], []) ->
  resolve_fields req = (["input"], []).
Proof.
  intros [[Ht | Ht] [Hb | Hb]] Hdet; unfold resolve_fields;
    rewrite Ht, Hb; cbn [is_nil andb]; now rewrite Hdet.
Qed.

(** C4 (amended).  For a valid request that names no field and whose
    scenario matches no profile, the detector returns two empty lists and
    the generator falls back on its default: the resolved text fields are
    [input] and there is no binary field, the total is 3, and the cases
    are, up to max_cases, input Valid with [Positive], input Invalid with
    [Negative], and input Empty with [Negative; Validation; Edge].  Every
    list of categories is non-empty; on the empty assignment the
    classifier returns exactly [Positive]. *)
Theorem unmatched_scenario_default_field (req : CombinationRequest.t) :
  CombinationRequest.valid req ->
  no_explicit_fields req ->
  detect_fields_for_scenario (CombinationRequest.scenario req) = ([], []) ->
  let resp := generate_combinations req in
  CombinationResponse.text_fields resp = ["input"]
  /\ CombinationResponse.binary_fields resp = []
  /\ CombinationResponse.total_combinations resp = 3%Z
  /\ map (fun c => (CombinationCase.combination c, CombinationCase.category c))
       (CombinationResponse.cases resp)
     = firstn (Z.to_nat (CombinationRequest.max_cases req))
         [([("input", "Valid")], ["Positive"]);
          ([("input", "Invalid")], ["Negative"]);
          ([("input", "Empty")], ["Negative"; "Validation"; "Edge"])]
  /\ Forall (fun c => CombinationCase.category c <> [])
       (CombinationResponse.cases resp)
  /\ _categorize_combination (CombinationResponse.scenario resp) [] = ["Positive"].
Proof.
  intros [_ [Hlo _]] Hno Hdet. cbv zeta.
  pose proof (resolve_fields_unmatched req Hno Hdet) as Hres.
  assert (Hmax : (0 <= CombinationRequest.max_cases req)%Z) by lia.
  rewrite generate_text_fields, generate_binary_fields, generate_total, Hres.
  repeat split.
  - rewrite generate_cases by assumption.
    rewrite (emit_map (loop_env req)
               (fun c => (CombinationCase.combination c, CombinationCase.category c))
               (fun t b =>
                  (build_combination ["input"] [] t b,
                   _categorize_combination
                     (PyStr.strip (CombinationRequest.scenario req))
                     (build_combination ["input"] [] t b)))).
    + unfold loop_env. cbn [env_req]. rewrite Z.sub_0_r, Hres.
      rewrite <- firstn_map. f_equal. cbn.
      now rewrite categorize_input_valid, categorize_input_invalid,
        categorize_input_empty.
    + intros counter t b. unfold make_case, loop_env.
      cbn [env_text_fields env_binary_fields env_scenario
           CombinationCase.combination CombinationCase.category].
      now rewrite Hres.
    + unfold loop_env. cbn [env_req]. exact Hmax.
  - apply Forall_forall. intros c Hc.
    rewrite generate_cases in Hc by assumption.
    assert (Hcat : forall pairs counter,
               Forall (fun c => CombinationCase.category c <> [])
                 (emit (loop_env req) pairs counter)).
    { induction pairs as [| [t b] pairs IH]; intros counter; cbn [emit];
        [constructor |].
      destruct (counter + 1 >? _)%Z; constructor; [| apply IH].
      apply (categorize_labels_nonempty). }
    exact (proj1 (Forall_forall _ _) (Hcat _ _) c Hc).
  - apply categorize_empty_assignment.
Qed.

Lemma unmatched_scenario_default_field_witness :
  let req := CombinationRequest.mk "xyzzy operation" web None None 200 in
  CombinationResponse.text_fields (generate_combinations req) = ["input"]
  /\ map (fun c => (CombinationCase.combination c, CombinationCase.category c))
       (CombinationResponse.cases (generate_combinations req))
     = [([("input", "Valid")], ["Positive"]);
        ([("input", "Invalid")], ["Negative"]);
        ([("input", "Empty")], ["Negative"; "Validation"; "Edge"])].
Proof.
  cbv zeta.
  destruct (unmatched_scenario_default_field
              (CombinationRequest.mk "xyzzy operation" web None None 200))
    as [Htf [_ [_ [Hcases _]]]].
  - unfold CombinationRequest.valid. simpl. lia.
  - split; left; reflexivity.
  - vm_compute. reflexivity.
  - split; [exact Htf | exact Hcases].
Defined.

(** C4, as stated, fails on the scenario "xyzzy operation": the detector
    does return two empty lists, but the response resolves the text field
    [input], its assignments are not empty, and its second and third
    cases are not categorized [Positive]. *)
Lemma unmatched_scenario_not_empty :
  let req := CombinationRequest.mk "xyzzy operation" web None None 200 in
  let resp := generate_combinations req in
  detect_fields_for_scenario "xyzzy operation" = ([], [])
  /\ CombinationResponse.text_fields resp <> []
  /\ ~ Forall (fun c => CombinationCase.combination c = [])
         (CombinationResponse.cases resp)
  /\ ~ Forall (fun c => CombinationCase.category c = ["Positive"])
         (CombinationResponse.cases resp)
  /\ ~ (CombinationResponse.text_fields resp = []
        /\ CombinationResponse.binary_fields resp = []
        /\ Forall (fun c => CombinationCase.combination c = [])
             (CombinationResponse.cases resp)
        /\ Forall (fun c => CombinationCase.category c = ["Positive"])
             (CombinationResponse.cases resp)).
Proof.
  cbv zeta.
  assert (Htf : CombinationResponse.text_fields
                  (generate_combinations
                     (CombinationRequest.mk "xyzzy operation" web None None 200))
                = ["input"]) by (vm_compute; reflexivity).
  assert (Hpairs :
    map (fun c => (CombinationCase.combination c, CombinationCase.category c))
      (CombinationResponse.cases
         (generate_combinations
            (CombinationRequest.mk "xyzzy operation" web None None 200)))
    = [([("input", "Valid")], ["Positive"]);
       ([("input", "Invalid")], ["Negative"]);
       ([("input", "Empty")], ["Negative"; "Validation"; "Edge"])])
    by (vm_compute; reflexivity).
  assert (Hcomb : ~ Forall (fun c => CombinationCase.combination c = [])
                      (CombinationResponse.cases
                         (generate_combinations
                            (CombinationRequest.mk "xyzzy operation" web None None 200)))).
  { intros H.
    destruct (CombinationResponse.cases _) as [| c0 rest]; [discriminate Hpairs |].
    apply Forall_inv in H. cbn [map] in Hpairs. injection Hpairs as Hc _ _.
    rewrite H in Hc. discriminate Hc. }
  assert (Hcat : ~ Forall (fun c => CombinationCase.category c = ["Positive"])
                     (CombinationResponse.cases
                        (generate_combinations
                           (CombinationRequest.mk "xyzzy operation" web None None 200)))).
  { intros H.
    destruct (CombinationResponse.cases _) as [| c0 [| c1 rest]];
      [discriminate Hpairs | discriminate Hpairs |].
    apply Forall_inv_tail, Forall_inv in H.
    cbn [map] in Hpairs. injection Hpairs as _ _ _ Hc _.
    rewrite H in Hc. discriminate Hc. }
  split; [vm_compute; reflexivity |].
  split; [rewrite Htf; discriminate |].
  split; [exact Hcomb |].
  split; [exact Hcat |].
  intros [H _]. rewrite Htf in H. discriminate H.
Qed.

(* ================================================================= *)
(** ** The classifier as one expression *)

Lemma text_states_has_state (state : string) (combination : dict) :
  mem state TEXT_STATES = true ->
  existsb (fun st => String.eqb st state)
    (map snd (filter (fun item => mem (snd item) TEXT_STATES) combination))
  = has_state state combination.
Proof.
  intros Hstate. unfold has_state.
  induction combination as [| [field st] rest IH]; [reflexivity |].
  cbn [filter existsb snd].
  destruct (mem st TEXT_STATES) eqn:Hst.
  - cbn [map existsb snd]. now rewrite IH.
  - rewrite IH. destruct (String.eqb st state) eqn:E; [| reflexivity].
    apply String.eqb_eq in E. subst st. congruence.
Qed.

Lemma text_states_all_valid (combination : dict) :
  has_state "Invalid" combination = false ->
  has_state "Empty" combination = false ->
  forallb (fun st => String.eqb st "Valid")
    (map snd (filter (fun item => mem (snd item) TEXT_STATES) combination))
  = true.
Proof.
  unfold has_state.
  induction combination as [| [field st] rest IH]; [reflexivity |].
  cbn [existsb filter snd]. intros Hi He.
  apply orb_false_iff in Hi as [Hi1 Hi2]. apply orb_false_iff in He as [He1 He2].
  destruct (mem st TEXT_STATES) eqn:Hst; [| now apply IH].
  cbn [map forallb snd]. rewrite IH by assumption.
  unfold mem, TEXT_STATES in Hst. cbn [existsb] in Hst.
  rewrite Hi1, He1 in Hst. rewrite !orb_false_r in Hst.
  now rewrite Hst.
Qed.

Lemma text_states_count_invalid (combination : dict) :
  count "Invalid"
    (map snd (filter (fun item => mem (snd item) TEXT_STATES) combination))
  = Z.of_nat (invalid_count combination).
Proof.
  unfold count, invalid_count. f_equal.
  induction combination as [| [field st] rest IH]; [reflexivity |].
  cbn [filter snd]. rewrite (String.eqb_sym st "Invalid").
  destruct (mem st TEXT_STATES) eqn:Hst.
  - cbn [map filter snd].
    destruct (String.eqb "Invalid" st); cbn [List.length]; now rewrite IH.
  - destruct (String.eqb "Invalid" st) eqn:E; [| exact IH].
    apply String.eqb_eq in E. subst st. discriminate Hst.
Qed.

Lemma security_step_unfold (cats : list string) (item : string * string) :
  security_step cats item
  = if sensitive_failure item && negb (mem "Security" cats)
    then cats ++ ["Security"] else cats.
Proof.
  unfold security_step, sensitive_failure. destruct item as [field state].
  cbn [fst snd].
  destruct (mem (PyStr.lower field) ["password"; "otp"; "token"]
            && mem state ["Invalid"; "Empty"]); [| reflexivity].
  now destruct (mem "Security" cats).
Qed.

(** The loop over the items adds Security exactly when some sensitive
    field failed and the label is not there yet. *)
Lemma security_loop_unfold (combination : dict) (cats : list string) :
  fold_left security_step combination cats
  = if existsb sensitive_failure combination && negb (mem "Security" cats)
    then cats ++ ["Security"] else cats.
Proof.
  revert cats. induction combination as [| item rest IH]; intros cats.
  - reflexivity.
  - cbn [fold_left existsb]. rewrite IH, security_step_unfold.
    destruct (sensitive_failure item); cbn [andb orb].
    + destruct (mem "Security" cats) eqn:Hsec; cbn [negb].
      * rewrite Hsec. now rewrite andb_false_r.
      * rewrite mem_app_self. now rewrite andb_false_r.
    + reflexivity.
Qed.

Lemma sensitive_failure_has_state (combination : dict) :
  existsb sensitive_failure combination = true ->
  has_state "Invalid" combination || has_state "Empty" combination = true.
Proof.
  unfold has_state.
  induction combination as [| [field st] rest IH]; [discriminate |].
  cbn [existsb snd]. intros H. apply orb_true_iff in H as [H | H].
  - unfold sensitive_failure in H. apply andb_true_iff in H as [_ H].
    cbn [snd] in H. unfold mem in H. cbn [existsb] in H.
    destruct (String.eqb st "Invalid"); [reflexivity |].
    destruct (String.eqb st "Empty"); [now rewrite !orb_true_r | discriminate].
  - specialize (IH H). apply orb_true_iff in IH as [-> | ->];
      now rewrite !orb_true_r.
Qed.

Lemma invalid_count_has_state (combination : dict) :
  (1 <= invalid_count combination)%nat ->
  has_state "Invalid" combination = true.
Proof.
  unfold invalid_count, has_state.
  induction combination as [| [field st] rest IH]; cbn [filter existsb snd];
    [cbn; lia |].
  destruct (String.eqb st "Invalid"); [reflexivity |]. exact IH.
Qed.

Lemma text_states_nil_has_state (state : string) (combination : dict) :
  mem state TEXT_STATES = true ->
  is_nil (map snd (filter (fun item => mem (snd item) TEXT_STATES) combination))
  = true ->
  has_state state combination = false.
Proof.
  intros Hstate Hnil. rewrite <- (text_states_has_state state) by exact Hstate.
  now destruct (map snd _).
Qed.

Lemma categorize_as_labels_of (scenario : string) (combination : dict) :
  _categorize_combination scenario combination = labels_of scenario combination.
Proof.
  unfold _categorize_combination, labels_of, security_signal.
  rewrite !text_states_has_state by reflexivity.
  rewrite text_states_count_invalid, security_loop_unfold.
  destruct (has_state "Invalid" combination) eqn:Hi;
    destruct (has_state "Empty" combination) eqn:He; cbn [orb negb].
  4: {
    rewrite (text_states_all_valid combination Hi He).
    assert (Hs : existsb sensitive_failure combination = false).
    { destruct (existsb sensitive_failure combination) eqn:E; [| reflexivity].
      apply sensitive_failure_has_state in E. rewrite Hi, He in E. discriminate. }
    assert (Hc : (invalid_count combination = 0)%nat).
    { destruct (invalid_count combination) eqn:E; [reflexivity |].
      rewrite invalid_count_has_state in Hi by lia. discriminate. }
    rewrite Hs, Hc. cbn [andb orb].
    generalize (map snd (filter (fun item => mem (snd item) TEXT_STATES)
                           combination)).
    intros ts. destruct ts; cbn; now destruct (security_scenario _).
  }
  all: assert (Hall :
         negb (is_nil (map snd (filter (fun item => mem (snd item) TEXT_STATES)
                                  combination)))
         && forallb (fun st => String.eqb st "Valid")
              (map snd (filter (fun item => mem (snd item) TEXT_STATES) combination))
         = false).
  all: try (
    destruct (forallb _ _) eqn:Hf; [| now rewrite andb_false_r];
    exfalso;
    first [ rewrite <- (text_states_has_state "Invalid") in Hi by reflexivity;
            apply existsb_exists in Hi as [st [Hin Hst]];
            rewrite forallb_forall in Hf; specialize (Hf st Hin);
            apply String.eqb_eq in Hst, Hf; congruence
          | rewrite <- (text_states_has_state "Empty") in He by reflexivity;
            apply existsb_exists in He as [st [Hin Hst]];
            rewrite forallb_forall in Hf; specialize (Hf st Hin);
            apply String.eqb_eq in Hst, Hf; congruence ]).
  all: rewrite Hall; cbn [app mem existsb String.eqb Ascii.eqb Bool.eqb negb orb andb];
    destruct (security_scenario _); cbn [andb];
    destruct (existsb sensitive_failure combination); cbn [orb andb negb app];
    try reflexivity;
    destruct (Z.of_nat (invalid_count combination) >=? 2)%Z eqn:Hz;
    destruct (2 <=? invalid_count combination)%nat eqn:Hn;
    try reflexivity;
    exfalso;
    first [ apply Nat.leb_le in Hn | apply Nat.leb_gt in Hn ];
    first [ apply Z.geb_le in Hz | rewrite Z.geb_leb, Z.leb_gt in Hz ]; lia.
Qed.

Lemma security_signal_has_state (scenario : string) (combination : dict) :
  security_signal scenario combination = true ->
  has_state "Invalid" combination || has_state "Empty" combination = true.
Proof.
  unfold security_signal. intros H.
  apply andb_true_iff in H as [_ H]. apply orb_true_iff in H as [H | H].
  - now apply sensitive_failure_has_state.
  - apply Nat.leb_le in H. rewrite invalid_count_has_state by lia. reflexivity.
Qed.

(** X1.  The classifier is a decision table on the assignment: Positive
    is given exactly when no field is Invalid or Empty, Negative exactly
    when some field is, Validation and Edge exactly when some field is
    Empty, and Security exactly when the scenario is a login, auth or
    sign-in scenario and either a password, otp or token field is Invalid
    or Empty or at least two fields are Invalid.  The list is the one
    expression [labels_of]. *)
Theorem classifier_decision_table (scenario : string) (combination : dict) :
  let cats := _categorize_combination scenario combination in
  let failure :=
    has_state "Invalid" combination || has_state "Empty" combination in
  cats = labels_of scenario combination
  /\ mem "Positive" cats = negb failure
  /\ mem "Negative" cats = failure
  /\ mem "Validation" cats = has_state "Empty" combination
  /\ mem "Edge" cats = has_state "Empty" combination
  /\ mem "Security" cats = security_signal scenario combination.
Proof.
  cbv zeta. rewrite categorize_as_labels_of. unfold labels_of.
  pose proof (security_signal_has_state scenario combination) as Hsig.
  destruct (has_state "Invalid" combination);
    destruct (has_state "Empty" combination);
    destruct (security_signal scenario combination);
    cbn in *; repeat split; try reflexivity;
    specialize (Hsig eq_refl); discriminate Hsig.
Qed.

(** X2.  The classifier returns one of five lists, in which Positive
    never stands beside another label and Security is given only for a
    login, auth or sign-in scenario. *)
Theorem classifier_five_outcomes (scenario : string) (combination : dict) :
  let cats := _categorize_combination scenario combination in
  In cats [["Positive"];
           ["Negative"];
           ["Negative"; "Security"];
           ["Negative"; "Validation"; "Edge"];
           ["Negative"; "Validation"; "Edge"; "Security"]]
  /\ implb (mem "Security" cats)
       (security_scenario (PyStr.lower (PyStr.strip scenario))) = true.
Proof.
  cbv zeta. rewrite categorize_as_labels_of. unfold labels_of, security_signal.
  destruct (has_state "Invalid" combination);
    destruct (has_state "Empty" combination);
    destruct (security_scenario _);
    destruct (existsb sensitive_failure combination || _);
    cbn; tauto.
Qed.

(** X3.  Classifier and expected result composed: for the labels the
    classifier gives an assignment, the expected result is the success
    text when no field is Invalid or Empty; else the validation text when
    some field is Empty; else the security text when the security
    condition holds; else the generic rejection text.  The fallback text
    is never produced. *)
Theorem expected_result_of_assignment (scenario : string) (combination : dict) :
  _build_expected_result scenario
    (_categorize_combination scenario combination) combination
  = if negb (has_state "Invalid" combination || has_state "Empty" combination)
    then success_text (PyStr.strip scenario)
    else if has_state "Empty" combination then validation_text
    else if security_signal scenario combination then security_text
    else negative_text.
Proof.
  rewrite categorize_as_labels_of. unfold labels_of, _build_expected_result.
  destruct (has_state "Invalid" combination);
    destruct (has_state "Empty" combination);
    destruct (security_signal scenario combination);
    reflexivity.
Qed.

(* ================================================================= *)
(** ** The steps of a case *)

Lemma field_step_app (scenario : string) (steps : list string)
  (item : string * string) :
  field_step scenario steps item = steps ++ field_step scenario [] item.
Proof.
  unfold field_step. destruct item as [field state].
  repeat match goal with
         | |- context [if ?b then _ else _] => destruct b; [reflexivity |]
         end.
  now rewrite app_nil_r.
Qed.

Lemma field_step_length (scenario : string) (item : string * string) :
  List.length (field_step scenario [] item)
  = if known_state (snd item) then 1%nat else 0%nat.
Proof.
  unfold field_step, known_state, mem. destruct item as [field state].
  cbn [snd app TEXT_STATES BINARY_STATES existsb].
  destruct (String.eqb state "Valid"); [reflexivity |].
  destruct (String.eqb state "Invalid"); [reflexivity |].
  destruct (String.eqb state "Empty"); [reflexivity |].
  destruct (String.eqb state "Checked"); [reflexivity |].
  destruct (String.eqb state "Unchecked"); reflexivity.
Qed.

Lemma field_steps_fold (scenario : string) (combination : dict)
  (steps : list string) :
  fold_left (field_step scenario) combination steps
  = steps ++ flat_map (field_step scenario []) combination.
Proof.
  revert steps. induction combination as [| item rest IH]; intros steps.
  - cbn. now rewrite app_nil_r.
  - cbn [fold_left flat_map]. rewrite IH, field_step_app.
    now rewrite <- app_assoc.
Qed.

Lemma field_steps_length (scenario : string) (combination : dict) :
  List.length (flat_map (field_step scenario []) combination)
  = List.length (filter (fun item => known_state (snd item)) combination).
Proof.
  induction combination as [| item rest IH]; [reflexivity |].
  cbn [flat_map filter]. rewrite length_app, field_step_length, IH.
  now destruct (known_state (snd item)).
Qed.

Lemma build_steps_length (req : CombinationRequest.t) (combination : dict) :
  List.length (_build_steps_for_combination req combination)
  = (5 + List.length (filter (fun item => known_state (snd item)) combination))%nat.
Proof.
  unfold _build_steps_for_combination. rewrite field_steps_fold.
  assert (Hop : List.length (opening_steps (CombinationRequest.platform req)) = 2%nat)
    by now destruct (CombinationRequest.platform req).
  rewrite !length_app, field_steps_length, Hop. cbn [List.length]. lia.
Qed.

(** X4.  The steps of a combination are the two opening steps of the
    platform, one navigation step, one step for each field whose state is
    one of Valid, Invalid, Empty, Checked, Unchecked, in the order of the
    assignment, and the two closing steps; a field with any other state
    gets no step. *)
Theorem build_steps_shape (req : CombinationRequest.t) (combination : dict) :
  let steps := _build_steps_for_combination req combination in
  let scenario := PyStr.strip (CombinationRequest.scenario req) in
  List.length steps
  = (5 + List.length (filter (fun item => known_state (snd item)) combination))%nat
  /\ exists navigate closing,
       List.length closing = 2%nat
       /\ steps
          = opening_steps (CombinationRequest.platform req)
            ++ navigate :: flat_map (field_step scenario []) combination
            ++ closing.
Proof.
  cbv zeta. split; [apply build_steps_length |].
  unfold _build_steps_for_combination. rewrite field_steps_fold.
  eexists. eexists. split; [| rewrite <- !app_assoc; cbn [app]; reflexivity].
  reflexivity.
Qed.

(* ================================================================= *)
(** ** The states and the records of the emitted cases *)

Lemma dict_set_states (P : string -> Prop) (d : dict) (k v : string) :
  Forall (fun item => P (snd item)) d -> P v ->
  Forall (fun item => P (snd item)) (dict_set d k v).
Proof.
  intros Hd Hv. induction Hd as [| [k' v'] d Hx Hd IH]; cbn [dict_set].
  - now repeat constructor.
  - destruct (String.eqb k' k); constructor; assumption.
Qed.

Lemma dict_update_zip_states (P : string -> Prop) (ks vs : list string) (d : dict) :
  Forall (fun item => P (snd item)) d -> Forall P vs ->
  Forall (fun item => P (snd item)) (dict_update_zip d ks vs).
Proof.
  unfold dict_update_zip. revert vs d.
  induction ks as [| k ks IH]; intros [| v vs] d Hd Hvs; try exact Hd.
  cbn [combine fold_left fst snd]. apply IH.
  - apply dict_set_states; [exact Hd | exact (Forall_inv Hvs)].
  - exact (Forall_inv_tail Hvs).
Qed.

Lemma digit_tuple_states (xs : list string) (n i : nat) :
  xs <> [] -> Forall (fun st => In st xs) (digit_tuple xs n i).
Proof.
  intros Hxs. unfold digit_tuple. apply Forall_forall. intros st Hst.
  apply in_map_iff in Hst as [j [<- _]]. apply nth_In.
  apply Nat.mod_upper_bound. destruct xs; [congruence | discriminate].
Qed.

Lemma dict_get_update_zip_in (ks vs : list string) (d : dict) (f : string) :
  In f ks -> List.length ks = List.length vs ->
  exists v, In v vs /\ dict_get (dict_update_zip d ks vs) f = Some v.
Proof.
  revert vs d. induction ks as [| k ks IH]; intros [| v vs] d Hf Hlen;
    try destruct Hf; try discriminate.
  - subst k. destruct (in_dec string_dec f ks) as [Hin | Hout].
    + destruct (IH vs (dict_set d f v) Hin ltac:(now injection Hlen))
        as [w [Hw Hget]].
      exists w. split; [now right | exact Hget].
    + exists v. split; [now left |].
      change (dict_get (dict_update_zip (dict_set d f v) ks vs) f = Some v).
      rewrite dict_get_update_zip_other by exact Hout.
      now rewrite dict_get_set, String.eqb_refl.
  - destruct (IH vs (dict_set d k v) H ltac:(now injection Hlen))
      as [w [Hw Hget]].
    exists w. split; [now right | exact Hget].
Qed.

Lemma emit_nth (env : LoopEnv) (pairs : list (list string * list string))
  (c : Z) (k : nat) (x : CombinationCase.t) :
  nth_error (emit env pairs c) k = Some x ->
  exists t b,
    nth_error pairs k = Some (t, b)
    /\ x = make_case env (c + 1 + Z.of_nat k) t b.
Proof.
  revert c k. induction pairs as [| [t b] pairs IH]; intros c k Hk.
  - destruct k; discriminate Hk.
  - cbn [emit] in Hk.
    destruct (c + 1 >? CombinationRequest.max_cases (env_req env))%Z;
      [destruct k; discriminate Hk |].
    destruct k as [| k].
    + cbn in Hk. injection Hk as <-. exists t, b. split; [reflexivity |].
      f_equal. lia.
    + cbn [nth_error] in Hk. destruct (IH _ _ Hk) as [t' [b' [Hp ->]]].
      exists t', b'. split; [exact Hp |]. f_equal. lia.
Qed.

Lemma generate_scenario (req : CombinationRequest.t) :
  CombinationResponse.scenario (generate_combinations req)
  = PyStr.strip (CombinationRequest.scenario req).
Proof.
  unfold generate_combinations. destruct (resolve_fields req) as [tf bf].
  now destruct (outer_loop _ _ _ _).
Qed.

(** Every case of the response is the record built from a pair of tuples
    of the enumeration and from its own position. *)
Lemma generate_case_nth (req : CombinationRequest.t) (k : nat)
  (c : CombinationCase.t) :
  (0 <= CombinationRequest.max_cases req)%Z ->
  nth_error (CombinationResponse.cases (generate_combinations req)) k = Some c ->
  exists t b,
    nth_error (state_pairs (fst (resolve_fields req)) (snd (resolve_fields req))) k
    = Some (t, b)
    /\ c = make_case (loop_env req) (Z.of_nat k + 1) t b.
Proof.
  intros Hmax Hk. rewrite generate_cases in Hk by assumption.
  destruct (emit_nth _ _ _ _ _ Hk) as [t [b [Hp ->]]].
  exists t, b. split; [exact Hp |]. f_equal. lia.
Qed.

Lemma state_pairs_states (tf bf : list string) (k : nat) (t b : list string) :
  nth_error (state_pairs tf bf) k = Some (t, b) ->
  List.length t = List.length tf /\ List.length b = List.length bf
  /\ Forall (fun st => In st TEXT_STATES) t
  /\ Forall (fun st => In st BINARY_STATES) b.
Proof.
  intros Hk.
  assert (Hlt : (k < 3 ^ List.length tf * 2 ^ List.length bf)%nat).
  { rewrite <- state_pairs_length. apply nth_error_Some. congruence. }
  rewrite state_pairs_nth in Hk by exact Hlt. injection Hk as <- <-.
  rewrite !digit_tuple_length.
  repeat split; apply digit_tuple_states; discriminate.
Qed.

Lemma known_text_state (st : string) :
  In st TEXT_STATES -> known_state st = true.
Proof. intros [<- | [<- | [<- | []]]]; reflexivity. Qed.

Lemma known_binary_state (st : string) :
  In st BINARY_STATES -> known_state st = true.
Proof. intros [<- | [<- | []]]; reflexivity. Qed.

Lemma build_combination_known (tf bf t b : list string) :
  Forall (fun st => In st TEXT_STATES) t ->
  Forall (fun st => In st BINARY_STATES) b ->
  Forall (fun item => known_state (snd item) = true) (build_combination tf bf t b).
Proof.
  intros Ht Hb. unfold build_combination.
  apply (dict_update_zip_states (fun st => known_state st = true)).
  - apply (dict_update_zip_states (fun st => known_state st = true));
      [constructor |].
    eapply Forall_impl; [| exact Ht]. apply known_text_state.
  - eapply Forall_impl; [| exact Hb]. apply known_binary_state.
Qed.

Lemma filter_all {A : Type} (p : A -> bool) (l : list A) :
  Forall (fun x => p x = true) l -> filter p l = l.
Proof.
  induction 1 as [| x l Hx _ IH]; [reflexivity |].
  cbn [filter]. now rewrite Hx, IH.
Qed.

(** X5.  Every emitted assignment holds legal states only: each state is
    one of the five known ones, every binary field holds Checked or
    Unchecked, and every text field that is not also a binary field holds
    Valid, Invalid or Empty. *)
Theorem emitted_states_legal (req : CombinationRequest.t) (c : CombinationCase.t) :
  CombinationRequest.valid req ->
  In c (CombinationResponse.cases (generate_combinations req)) ->
  let resp := generate_combinations req in
  let a := CombinationCase.combination c in
  Forall (fun item => known_state (snd item) = true) a
  /\ (forall f, In f (CombinationResponse.binary_fields resp) ->
        exists st, dict_get a f = Some st /\ In st BINARY_STATES)
  /\ (forall f, In f (CombinationResponse.text_fields resp) ->
        ~ In f (CombinationResponse.binary_fields resp) ->
        exists st, dict_get a f = Some st /\ In st TEXT_STATES).
Proof.
  intros [_ [Hlo _]] Hin. cbv zeta.
  rewrite generate_text_fields, generate_binary_fields.
  apply In_nth_error in Hin as [k Hk].
  destruct (generate_case_nth req k c ltac:(lia) Hk) as [t [b [Hp ->]]].
  destruct (state_pairs_states _ _ _ _ _ Hp) as [Hlt [Hlb [Ht Hb]]].
  rewrite case_combination. unfold loop_env.
  cbn [env_text_fields env_binary_fields].
  split; [now apply build_combination_known |]. split.
  - intros f Hf. unfold build_combination.
    destruct (dict_get_update_zip_in (snd (resolve_fields req)) b
                (dict_update_zip [] (fst (resolve_fields req)) t) f Hf
                ltac:(now symmetry)) as [st [Hst Hget]].
    exists st. split; [exact Hget |].
    exact (proj1 (Forall_forall _ _) Hb st Hst).
  - intros f Hf Hnb. unfold build_combination.
    rewrite dict_get_update_zip_other by exact Hnb.
    destruct (dict_get_update_zip_in (fst (resolve_fields req)) t [] f Hf
                ltac:(now symmetry)) as [st [Hst Hget]].
    exists st. split; [exact Hget |].
    exact (proj1 (Forall_forall _ _) Ht st Hst).
Qed.

Lemma emitted_states_legal_witness :
  let req := CombinationRequest.mk "checkout" mobile None None 5 in
  exists c,
    nth_error (CombinationResponse.cases (generate_combinations req)) 4 = Some c
    /\ exists st,
         dict_get (CombinationCase.combination c) "accept_terms" = Some st
         /\ In st BINARY_STATES.
Proof.
  cbv zeta.
  destruct (nth_error
              (CombinationResponse.cases
                 (generate_combinations
                    (CombinationRequest.mk "checkout" mobile None None 5)))
              4) as [c |] eqn:Hc; [| vm_compute in Hc; discriminate Hc].
  exists c. split; [reflexivity |].
  apply (emitted_states_legal (CombinationRequest.mk "checkout" mobile None None 5) c).
  - unfold CombinationRequest.valid. simpl. lia.
  - exact (nth_error_In _ _ Hc).
  - vm_compute. tauto.
Defined.

(** X6.  Every case record is consistent with its own assignment: its
    categories are the classifier's on that assignment, its expected
    result is built from those categories, its steps and its Markdown
    from the same data, with one step for each field beside the five
    fixed ones, and its identifier carries its position, counted from
    one, after the prefix of the scenario. *)
Theorem case_record_consistent (req : CombinationRequest.t) (k : nat)
  (c : CombinationCase.t) :
  CombinationRequest.valid req ->
  nth_error (CombinationResponse.cases (generate_combinations req)) k = Some c ->
  let scenario := CombinationResponse.scenario (generate_combinations req) in
  let a := CombinationCase.combination c in
  CombinationCase.id c = case_id scenario (Z.of_nat k + 1)
  /\ CombinationCase.category c = _categorize_combination scenario a
  /\ CombinationCase.expected_result c
     = _build_expected_result scenario (CombinationCase.category c) a
  /\ CombinationCase.steps c = _build_steps_for_combination req a
  /\ CombinationCase.markdown c
     = _build_markdown_for_case (CombinationCase.id c) scenario
         (CombinationCase.category c) a (CombinationCase.steps c)
         (CombinationCase.expected_result c)
  /\ List.length (CombinationCase.steps c) = (5 + List.length a)%nat.
Proof.
  intros [_ [Hlo _]] Hk. cbv zeta. rewrite generate_scenario.
  destruct (generate_case_nth req k c ltac:(lia) Hk) as [t [b [Hp ->]]].
  destruct (state_pairs_states _ _ _ _ _ Hp) as [_ [_ [Ht Hb]]].
  repeat split.
  unfold make_case. cbn [CombinationCase.steps CombinationCase.combination].
  unfold loop_env at 1. cbn [env_req].
  rewrite build_steps_length. f_equal. f_equal.
  apply filter_all. now apply build_combination_known.
Qed.

Lemma case_record_consistent_witness :
  let req := CombinationRequest.mk "wifi hotspot" automotive None None 30 in
  exists c,
    nth_error (CombinationResponse.cases (generate_combinations req)) 29 = Some c
    /\ CombinationCase.id c = "WIFI_HOT-0030"
    /\ List.length (CombinationCase.steps c) = 11%nat.
Proof.
  cbv zeta.
  destruct (nth_error
              (CombinationResponse.cases
                 (generate_combinations
                    (CombinationRequest.mk "wifi hotspot" automotive None None 30)))
              29) as [c |] eqn:Hc; [| vm_compute in Hc; discriminate Hc].
  exists c. split; [reflexivity |].
  destruct (case_record_consistent
              (CombinationRequest.mk "wifi hotspot" automotive None None 30) 29 c)
    as [Hid [_ [_ [_ [_ Hlen]]]]].
  - unfold CombinationRequest.valid. simpl. lia.
  - exact Hc.
  - split.
    + rewrite Hid. vm_compute. reflexivity.
    + rewrite Hlen.
      apply nth_error_In in Hc.
      assert (Hkeys : map (fun x => List.length (CombinationCase.combination x))
                        (CombinationResponse.cases
                           (generate_combinations
                              (CombinationRequest.mk "wifi hotspot" automotive
                                 None None 30)))
                      = repeat 6%nat 30) by (vm_compute; reflexivity).
      apply (in_map (fun x => List.length (CombinationCase.combination x))) in Hc.
      rewrite Hkeys in Hc. rewrite (repeat_spec _ _ _ Hc). reflexivity.
Defined.

(* ================================================================= *)
(** ** Identifiers *)

Lemma string_app_inj_l (p a b : string) :
  (p ++ a = p ++ b)%string -> a = b.
Proof.
  induction p as [| ch p IH]; cbn [String.append]; intros H; [exact H |].
  apply IH. now injection H.
Qed.

Lemma nodupb_NoDup (l : list string) : nodupb l = true -> NoDup l.
Proof.
  induction l as [| x l IH]; cbn [nodupb]; intros H; constructor.
  - apply andb_true_iff in H as [H _]. apply negb_true_iff in H.
    now apply mem_not_In.
  - apply IH. now apply andb_true_iff in H as [_ H].
Qed.

Lemma NoDup_map_inj {A B : Type} (f : A -> B) (l : list A) :
  (forall x y, f x = f y -> x = y) -> NoDup l -> NoDup (map f l).
Proof.
  intros Hf. induction 1 as [| x l Hx _ IH]; cbn [map]; constructor; [| exact IH].
  intros Hin. apply in_map_iff in Hin as [y [Hy Hin]].
  apply Hf in Hy. now subst y.
Qed.

Lemma NoDup_firstn {A : Type} (n : nat) (l : list A) :
  NoDup l -> NoDup (firstn n l).
Proof.
  intros H. rewrite <- (firstn_skipn n l) in H.
  exact (NoDup_app_remove_r _ _ H).
Qed.

Lemma firstn_seq_min (n start len : nat) :
  firstn n (seq start len) = seq start (Nat.min n len).
Proof.
  revert start len. induction n as [| n IH]; intros start [| len];
    try reflexivity.
  cbn [firstn seq Nat.min]. now rewrite IH.
Qed.

(** The numbers 1 to 1000 have pairwise different four-digit forms. *)
Lemma fmt04d_distinct :
  NoDup (map (fun i => PyStr.fmt04d (Z.of_nat i)) (seq 1 1000)).
Proof.
  apply nodupb_NoDup. vm_compute. reflexivity.
Qed.

Lemma emit_ids (env : LoopEnv) (pairs : list (list string * list string)) (c : Z) :
  map CombinationCase.id (emit env pairs c)
  = map (fun i => (env_prefix env ++ "-" ++ PyStr.fmt04d (c + Z.of_nat i))%string)
      (seq 1 (List.length (emit env pairs c))).
Proof.
  revert c. induction pairs as [| [t b] pairs IH]; intros c; [reflexivity |].
  cbn [emit].
  destruct (c + 1 >? CombinationRequest.max_cases (env_req env))%Z; [reflexivity |].
  cbn [map List.length seq]. f_equal.
  rewrite IH, <- (seq_shift _ 1), map_map. apply map_ext. intros i.
  do 3 f_equal. lia.
Qed.

Lemma generate_ids (req : CombinationRequest.t) :
  (0 <= CombinationRequest.max_cases req)%Z ->
  map CombinationCase.id (CombinationResponse.cases (generate_combinations req))
  = map (fun i => case_id (PyStr.strip (CombinationRequest.scenario req))
                    (Z.of_nat i))
      (seq 1 (List.length (CombinationResponse.cases (generate_combinations req)))).
Proof.
  intros Hmax. rewrite generate_cases by assumption. rewrite emit_ids.
  apply map_ext. intros i. reflexivity.
Qed.

Lemma generate_cases_bound (req : CombinationRequest.t) :
  (0 <= CombinationRequest.max_cases req)%Z ->
  (Z.of_nat (List.length (CombinationResponse.cases (generate_combinations req)))
   <= CombinationRequest.max_cases req)%Z.
Proof.
  intros Hmax. rewrite <- generate_returned_count, generate_count_min by assumption.
  lia.
Qed.

(** X7.  The identifiers of the cases of a response are the prefix of
    the scenario followed by the four-digit numbers 1, 2, 3, ... in the
    order of the cases, and no two cases of a response share an
    identifier. *)
Theorem case_ids_sequential_distinct (req : CombinationRequest.t) :
  CombinationRequest.valid req ->
  let resp := generate_combinations req in
  let ids := map CombinationCase.id (CombinationResponse.cases resp) in
  ids = map (fun i => case_id (CombinationResponse.scenario resp) (Z.of_nat i))
          (seq 1 (List.length (CombinationResponse.cases resp)))
  /\ NoDup ids.
Proof.
  intros [_ [Hlo Hhi]]. cbv zeta. rewrite generate_scenario.
  assert (Hmax : (0 <= CombinationRequest.max_cases req)%Z) by lia.
  pose proof (generate_ids req Hmax) as Hids.
  pose proof (generate_cases_bound req Hmax) as Hbound.
  split; [exact Hids |]. rewrite Hids.
  set (n := List.length (CombinationResponse.cases (generate_combinations req))) in *.
  unfold case_id.
  rewrite <- (map_map (fun i => PyStr.fmt04d (Z.of_nat i))
                (fun d => (case_id_prefix (PyStr.strip (CombinationRequest.scenario req))
                           ++ "-" ++ d)%string)).
  apply NoDup_map_inj.
  - intros x y H. apply string_app_inj_l in H.
    exact (string_app_inj_l "-" x y H).
  - replace (seq 1 n) with (firstn n (seq 1 1000))
      by (rewrite firstn_seq_min; f_equal; lia).
    rewrite <- firstn_map. apply NoDup_firstn. exact fmt04d_distinct.
Qed.

Lemma case_ids_sequential_distinct_witness :
  let req := CombinationRequest.mk "logout" web None None 4 in
  map CombinationCase.id (CombinationResponse.cases (generate_combinations req))
  = ["LOGOUT-0001"; "LOGOUT-0002"; "LOGOUT-0003"; "LOGOUT-0004"].
Proof.
  cbv zeta.
  destruct (case_ids_sequential_distinct
              (CombinationRequest.mk "logout" web None None 4)) as [Hids _].
  - unfold CombinationRequest.valid. simpl. lia.
  - rewrite Hids. vm_compute. reflexivity.
Defined.







Lemma filter_chars_length (p : ascii -> bool) (s : string) :
  (String.length (PyStr.filter_chars p s) <= String.length s)%nat.
Proof.
  induction s as [| ch s IH]; [cbn; lia |].
  cbn [PyStr.filter_chars]. destruct (p ch); cbn [String.length]; lia.
Qed.



Lemma platform_tag (p : Platform) :
  PyStr.lower (PyStr.strip (PyStr.or_else (platform_str p) "generic"))
  = platform_str p.
Proof. destruct p; reflexivity. Qed.

(** X10.  The four fixed test cases carry the identifiers prefix-001 to
    prefix-004, which are pairwise different, and every one of them has
    the name of the platform as its last tag. *)
Theorem scenario_tests_ids_and_tags (request : ScenarioRequest.t) :
  let tests := generate_scenario_tests request in
  let prefix := _make_id_prefix (PyStr.strip (ScenarioRequest.scenario request)) in
  map TestCase.id tests
  = map (String.append prefix) ["-001"; "-002"; "-003"; "-004"]
  /\ NoDup (map TestCase.id tests)
  /\ map (fun tc => last (TestCase.tags tc) "") tests
     = repeat (platform_str (ScenarioRequest.platform request)) 4.
Proof.
  cbv zeta.
  assert (Hids : map TestCase.id (generate_scenario_tests request)
                 = map (String.append
                          (_make_id_prefix
                             (PyStr.strip (ScenarioRequest.scenario request))))
                     ["-001"; "-002"; "-003"; "-004"]) by reflexivity.
  split; [exact Hids |]. split.
  - rewrite Hids. apply NoDup_map_inj; [apply string_app_inj_l |].
    apply nodupb_NoDup. reflexivity.
  - unfold generate_scenario_tests. cbn [map TestCase.tags app last repeat].
    now rewrite platform_tag.
Qed.

(* ================================================================= *)
(** ** The field detector and the resolution of the field model *)

Ltac split_branches :=
  repeat match goal with
         | |- context [if ?b then _ else _] => destruct b
         end.

Lemma detect_fields_distinct (scenario : string) :
  nodupb (fst (detect_fields_for_scenario scenario)
          ++ snd (detect_fields_for_scenario scenario)) = true.
Proof.
  unfold detect_fields_for_scenario. cbv zeta. split_branches; reflexivity.
Qed.

Lemma detect_fields_sizes (scenario : string) :
  (List.length (fst (detect_fields_for_scenario scenario)) <=? 5)%nat
  && (List.length (snd (detect_fields_for_scenario scenario)) <=? 2)%nat
  && Bool.eqb (is_nil (fst (detect_fields_for_scenario scenario)))
       (is_nil (snd (detect_fields_for_scenario scenario))) = true.
Proof.
  unfold detect_fields_for_scenario. cbv zeta. split_branches; reflexivity.
Qed.

(** X11.  Whatever the scenario, the detector returns either two empty
    lists or at least one text field and one binary field, never more
    than five text fields and two binary fields, and no name twice. *)
Theorem detected_fields_shape (scenario : string) :
  let tf := fst (detect_fields_for_scenario scenario) in
  let bf := snd (detect_fields_for_scenario scenario) in
  NoDup (tf ++ bf)
  /\ is_nil tf = is_nil bf
  /\ (List.length tf <= 5)%nat
  /\ (List.length bf <= 2)%nat.
Proof.
  cbv zeta. pose proof (detect_fields_sizes scenario) as H.
  apply andb_true_iff in H as [H Hnil]. apply andb_true_iff in H as [Ht Hb].
  apply Nat.leb_le in Ht, Hb. apply Bool.eqb_prop in Hnil.
  repeat split; try assumption.
  apply nodupb_NoDup, detect_fields_distinct.
Qed.

(** The explicit list of a request, [None] read as the empty list. *)
Lemma resolve_fields_cases (req : CombinationRequest.t) :
  let et := match CombinationRequest.text_fields req with
            | Some l => l | None => [] end in
  let eb := match CombinationRequest.binary_fields req with
            | Some l => l | None => [] end in
  resolve_fields req
  = if is_nil et && is_nil eb
    then if is_nil (fst (detect_fields_for_scenario (CombinationRequest.scenario req)))
            && is_nil (snd (detect_fields_for_scenario (CombinationRequest.scenario req)))
         then (["input"], [])
         else detect_fields_for_scenario (CombinationRequest.scenario req)
    else (et, eb).
Proof.
  cbv zeta. unfold resolve_fields.
  destruct (CombinationRequest.text_fields req) as [[| x l] |];
    destruct (CombinationRequest.binary_fields req) as [[| y m] |];
    cbn [is_nil andb]; try reflexivity;
    destruct (detect_fields_for_scenario (CombinationRequest.scenario req))
      as [[| a tf] [| b bf]]; reflexivity.
Qed.

Lemma resolve_fields_nonempty (req : CombinationRequest.t) :
  is_nil (fst (resolve_fields req)) && is_nil (snd (resolve_fields req)) = false.
Proof.
  unfold resolve_fields.
  destruct (CombinationRequest.text_fields req) as [[| x l] |];
    destruct (CombinationRequest.binary_fields req) as [[| y m] |];
    cbn [is_nil andb]; try reflexivity;
    destruct (detect_fields_for_scenario (CombinationRequest.scenario req))
      as [[| a tf] [| b bf]]; reflexivity.
Qed.

Lemma pow_pos_nat (a n : nat) : (1 <= a)%nat -> (1 <= a ^ n)%nat.
Proof.
  intros Ha. assert (a ^ n <> 0)%nat by (apply Nat.pow_nonzero; lia). lia.
Qed.

(** X12.  The resolved field model is never empty, so the reported total
    is at least 2; and as soon as the request names a field of its own,
    its two lists are taken as they are (a missing list as empty) and the
    detector is not consulted. *)
Theorem resolved_fields_never_empty (req : CombinationRequest.t) :
  let resp := generate_combinations req in
  let et := match CombinationRequest.text_fields req with
            | Some l => l | None => [] end in
  let eb := match CombinationRequest.binary_fields req with
            | Some l => l | None => [] end in
  is_nil (CombinationResponse.text_fields resp)
  && is_nil (CombinationResponse.binary_fields resp) = false
  /\ (2 <= CombinationResponse.total_combinations resp)%Z
  /\ (is_nil et && is_nil eb = false ->
      CombinationResponse.text_fields resp = et
      /\ CombinationResponse.binary_fields resp = eb).
Proof.
  cbv zeta. rewrite generate_text_fields, generate_binary_fields, generate_total.
  pose proof (resolve_fields_nonempty req) as Hne.
  repeat split.
  - exact Hne.
  - rewrite total_as_nat.
    pose proof (pow_pos_nat 3 (List.length (fst (resolve_fields req))) ltac:(lia)).
    pose proof (pow_pos_nat 2 (List.length (snd (resolve_fields req))) ltac:(lia)).
    destruct (fst (resolve_fields req)) as [| x tf];
      destruct (snd (resolve_fields req)) as [| y bf];
      [discriminate Hne | | |]; cbn [List.length Nat.pow] in *; nia.
  - rewrite resolve_fields_cases. cbv zeta. now rewrite H.
  - rewrite resolve_fields_cases. cbv zeta. now rewrite H.
Qed.

Lemma resolved_fields_never_empty_witness :
  let req :=
    CombinationRequest.mk "login" web None (Some ["newsletter"]) 10 in
  CombinationResponse.text_fields (generate_combinations req) = []
  /\ CombinationResponse.binary_fields (generate_combinations req) = ["newsletter"].
Proof.
  cbv zeta.
  apply (resolved_fields_never_empty
           (CombinationRequest.mk "login" web None (Some ["newsletter"]) 10)).
  reflexivity.
Defined.

Lemma resolve_fields_auto (req : CombinationRequest.t) :
  no_explicit_fields req ->
  NoDup (fst (resolve_fields req) ++ snd (resolve_fields req))
  /\ (List.length (fst (resolve_fields req)) <= 5)%nat
  /\ (List.length (snd (resolve_fields req)) <= 2)%nat.
Proof.
  intros [Ht Hb].
  pose proof (nodupb_NoDup _ (detect_fields_distinct (CombinationRequest.scenario req)))
    as Hnd.
  pose proof (detect_fields_sizes (CombinationRequest.scenario req)) as Hsz.
  apply andb_true_iff in Hsz as [Hsz _]. apply andb_true_iff in Hsz as [Hlt Hlb].
  apply Nat.leb_le in Hlt, Hlb.
  unfold resolve_fields.
  destruct Ht as [-> | ->], Hb as [-> | ->]; cbn [is_nil andb];
    destruct (detect_fields_for_scenario (CombinationRequest.scenario req))
      as [[| a tf] [| b bf]]; cbn [is_nil andb fst snd] in *;
    repeat split; try assumption; try (cbn; lia);
    cbn; repeat constructor; intros [].
Qed.

(** X13.  For a request that names no field, the resolved names are
    pairwise different and the total is at most 972; so with a cap of at
    least 972 such a request gets every combination. *)
Theorem detected_model_fits_cap (req : CombinationRequest.t) :
  CombinationRequest.valid req ->
  no_explicit_fields req ->
  let resp := generate_combinations req in
  NoDup (CombinationResponse.text_fields resp
         ++ CombinationResponse.binary_fields resp)
  /\ (CombinationResponse.total_combinations resp <= 972)%Z
  /\ ((972 <= CombinationRequest.max_cases req)%Z ->
      CombinationResponse.returned_count resp
      = CombinationResponse.total_combinations resp).
Proof.
  intros [_ [Hlo _]] Hauto. cbv zeta.
  rewrite generate_count_min by lia.
  rewrite generate_text_fields, generate_binary_fields, generate_total.
  destruct (resolve_fields_auto req Hauto) as [Hnd [Hlt Hlb]].
  assert (Htotal :
    (_compute_total_combinations
       (Z.of_nat (List.length (fst (resolve_fields req))))
       (Z.of_nat (List.length (snd (resolve_fields req)))) <= 972)%Z).
  { rewrite total_as_nat.
    assert (3 ^ List.length (fst (resolve_fields req)) <= 3 ^ 5)%nat
      by (apply Nat.pow_le_mono_r; lia).
    assert (2 ^ List.length (snd (resolve_fields req)) <= 2 ^ 2)%nat
      by (apply Nat.pow_le_mono_r; lia).
    cbn [Nat.pow Nat.mul Nat.add] in *. nia. }
  repeat split.
  - exact Hnd.
  - exact Htotal.
  - intros Hcap. lia.
Qed.

Lemma detected_model_fits_cap_witness :
  let req := CombinationRequest.mk "bluetooth pairing" automotive None None 1000 in
  CombinationResponse.returned_count (generate_combinations req)
  = CombinationResponse.total_combinations (generate_combinations req).
Proof.
  cbv zeta.
  apply (detected_model_fits_cap
           (CombinationRequest.mk "bluetooth pairing" automotive None None 1000)).
  - unfold CombinationRequest.valid. simpl. lia.
  - split; left; reflexivity.
  - simpl. lia.
Defined.

(* ================================================================= *)
(** ** Normalisation of the scenario *)

Lemma lstrip_map (f : ascii -> ascii) (s : string) :
  (forall ch, PyStr.is_space (f ch) = PyStr.is_space ch) ->
  PyStr.lstrip (PyStr.map_chars f s) = PyStr.map_chars f (PyStr.lstrip s).
Proof.
  intros Hf. induction s as [| ch s IH]; [reflexivity |].
  cbn [PyStr.map_chars PyStr.lstrip]. rewrite Hf.
  destruct (PyStr.is_space ch); [exact IH | reflexivity].
Qed.

Lemma rstrip_map (f : ascii -> ascii) (s : string) :
  (forall ch, PyStr.is_space (f ch) = PyStr.is_space ch) ->
  PyStr.rstrip (PyStr.map_chars f s) = PyStr.map_chars f (PyStr.rstrip s).
Proof.
  intros Hf. induction s as [| ch s IH]; [reflexivity |].
  cbn [PyStr.map_chars PyStr.rstrip]. rewrite IH, Hf.
  destruct (PyStr.rstrip s); cbn [PyStr.map_chars]; [| reflexivity].
  now destruct (PyStr.is_space ch).
Qed.

Lemma strip_map (f : ascii -> ascii) (s : string) :
  (forall ch, PyStr.is_space (f ch) = PyStr.is_space ch) ->
  PyStr.strip (PyStr.map_chars f s) = PyStr.map_chars f (PyStr.strip s).
Proof.
  intros Hf. unfold PyStr.strip. now rewrite lstrip_map, rstrip_map.
Qed.

Lemma map_chars_compose (f g : ascii -> ascii) (s : string) :
  PyStr.map_chars f (PyStr.map_chars g s) = PyStr.map_chars (fun ch => f (g ch)) s.
Proof.
  induction s as [| ch s IH]; [reflexivity |].
  cbn [PyStr.map_chars]. now rewrite IH.
Qed.

Lemma map_chars_ext (f g : ascii -> ascii) (s : string) :
  (forall ch, f ch = g ch) -> PyStr.map_chars f s = PyStr.map_chars g s.
Proof.
  intros H. induction s as [| ch s IH]; [reflexivity |].
  cbn [PyStr.map_chars]. now rewrite H, IH.
Qed.

Lemma upper_char_space (ch : ascii) :
  PyStr.is_space (PyStr.upper_char ch) = PyStr.is_space ch.
Proof. destruct ch as [[|] [|] [|] [|] [|] [|] [|] [|]]; reflexivity. Qed.

Lemma lower_char_space (ch : ascii) :
  PyStr.is_space (PyStr.lower_char ch) = PyStr.is_space ch.
Proof. destruct ch as [[|] [|] [|] [|] [|] [|] [|] [|]]; reflexivity. Qed.

Lemma lower_upper_char (ch : ascii) :
  PyStr.lower_char (PyStr.upper_char ch) = PyStr.lower_char ch.
Proof. destruct ch as [[|] [|] [|] [|] [|] [|] [|] [|]]; reflexivity. Qed.

Lemma lower_lower_char (ch : ascii) :
  PyStr.lower_char (PyStr.lower_char ch) = PyStr.lower_char ch.
Proof. destruct ch as [[|] [|] [|] [|] [|] [|] [|] [|]]; reflexivity. Qed.

Lemma lstrip_no_leading (s : string) :
  match PyStr.lstrip s with
  | EmptyString => True
  | String ch _ => PyStr.is_space ch = false
  end.
Proof.
  induction s as [| ch s IH]; [exact I |].
  cbn [PyStr.lstrip]. destruct (PyStr.is_space ch) eqn:E; [exact IH | exact E].
Qed.

Lemma rstrip_keeps_head (ch : ascii) (s : string) :
  PyStr.is_space ch = false ->
  exists r, PyStr.rstrip (String ch s) = String ch r.
Proof.
  intros H. cbn [PyStr.rstrip]. rewrite H.
  destruct (PyStr.rstrip s); eexists; reflexivity.
Qed.

Lemma rstrip_cons (ch : ascii) (s : string) :
  PyStr.rstrip (String ch s)
  = match PyStr.rstrip s with
    | EmptyString => if PyStr.is_space ch then EmptyString else String ch EmptyString
    | r => String ch r
    end.
Proof. reflexivity. Qed.

Lemma rstrip_idem (s : string) :
  PyStr.rstrip (PyStr.rstrip s) = PyStr.rstrip s.
Proof.
  induction s as [| ch s IH]; [reflexivity |].
  rewrite rstrip_cons. destruct (PyStr.rstrip s) as [| a r] eqn:E.
  - destruct (PyStr.is_space ch) eqn:Hsp; [reflexivity |].
    rewrite rstrip_cons. cbn [PyStr.rstrip]. now rewrite Hsp.
  - rewrite rstrip_cons, IH. reflexivity.
Qed.

Lemma strip_idem (s : string) :
  PyStr.strip (PyStr.strip s) = PyStr.strip s.
Proof.
  unfold PyStr.strip.
  pose proof (lstrip_no_leading s) as Hlead.
  destruct (PyStr.lstrip s) as [| ch x] eqn:E; [reflexivity |].
  destruct (rstrip_keeps_head ch x Hlead) as [r Hr].
  rewrite Hr. cbn [PyStr.lstrip]. rewrite Hlead, <- Hr. apply rstrip_idem.
Qed.

(** The scenario as the detector and the classifier read it. *)
Lemma normalise_upper (s : string) :
  PyStr.lower (PyStr.strip (PyStr.upper s)) = PyStr.lower (PyStr.strip s).
Proof.
  unfold PyStr.upper, PyStr.lower.
  rewrite strip_map by apply upper_char_space.
  rewrite map_chars_compose. apply map_chars_ext, lower_upper_char.
Qed.

Lemma normalise_lower (s : string) :
  PyStr.lower (PyStr.strip (PyStr.lower s)) = PyStr.lower (PyStr.strip s).
Proof.
  unfold PyStr.lower.
  rewrite strip_map by apply lower_char_space.
  rewrite map_chars_compose. apply map_chars_ext, lower_lower_char.
Qed.

Lemma detect_normal_form (s s' : string) :
  PyStr.lower (PyStr.strip s) = PyStr.lower (PyStr.strip s') ->
  detect_fields_for_scenario s = detect_fields_for_scenario s'.
Proof.
  intros H. unfold detect_fields_for_scenario. now rewrite H.
Qed.

Lemma categorize_normal_form (s s' : string) (combination : dict) :
  PyStr.lower (PyStr.strip s) = PyStr.lower (PyStr.strip s') ->
  _categorize_combination s combination = _categorize_combination s' combination.
Proof.
  intros H. unfold _categorize_combination. now rewrite H.
Qed.

(** X14.  The detector and the classifier read the scenario without
    regard to the case of its letters or to white space around it: the
    scenario in upper case, in lower case, or trimmed gets the same
    fields and the same labels. *)
Theorem scenario_case_and_padding_ignored (scenario : string) :
  detect_fields_for_scenario (PyStr.upper scenario)
  = detect_fields_for_scenario scenario
  /\ detect_fields_for_scenario (PyStr.lower scenario)
     = detect_fields_for_scenario scenario
  /\ detect_fields_for_scenario (PyStr.strip scenario)
     = detect_fields_for_scenario scenario
  /\ forall combination,
       _categorize_combination (PyStr.upper scenario) combination
       = _categorize_combination scenario combination
       /\ _categorize_combination (PyStr.lower scenario) combination
          = _categorize_combination scenario combination
       /\ _categorize_combination (PyStr.strip scenario) combination
          = _categorize_combination scenario combination.
Proof.
  repeat split;
    first [ apply detect_normal_form | apply categorize_normal_form ];
    first [ apply normalise_upper | apply normalise_lower
          | now rewrite strip_idem ].
Qed.

(* ================================================================= *)
(** ** Login scenarios and the security label *)

Lemma prefix_trans (a b s : string) :
  String.prefix a b = true -> String.prefix b s = true ->
  String.prefix a s = true.
Proof.
  revert b s. induction a as [| ch a IH]; intros b s Hab Hbs;
    [now destruct s |].
  destruct b as [| cb b]; [discriminate Hab |].
  destruct s as [| cs s]; [discriminate Hbs |].
  cbn [String.prefix] in *.
  destruct (ascii_dec ch cb) as [-> |]; [| discriminate Hab].
  destruct (ascii_dec cb cs) as [-> |]; [| discriminate Hbs].
  exact (IH b s Hab Hbs).
Qed.

Lemma contains_prefix_mono (a b s : string) :
  String.prefix a b = true ->
  PyStr.contains b s = true -> PyStr.contains a s = true.
Proof.
  intros Hab. induction s as [| ch s IH]; cbn [PyStr.contains]; intros H.
  - apply orb_true_iff in H as [H | H]; [| discriminate H].
    now rewrite (prefix_trans a b _ Hab H).
  - apply orb_true_iff in H as [H | H].
    + now rewrite (prefix_trans a b _ Hab H).
    + rewrite (IH H). now rewrite orb_true_r.
Qed.

Lemma detect_login_security (scenario : string) :
  detect_fields_for_scenario scenario = login_profile ->
  security_scenario (PyStr.lower (PyStr.strip scenario)) = true.
Proof.
  unfold detect_fields_for_scenario, security_scenario. cbv zeta.
  destruct (PyStr.contains "login" _) eqn:E1; [reflexivity |].
  destruct (PyStr.contains "sign in" _) eqn:E2;
    [intros _; cbn [orb]; apply orb_true_r |].
  destruct (PyStr.contains "authenticate" _) eqn:E3.
  - intros _. rewrite (contains_prefix_mono "auth" "authenticate" _ eq_refl E3).
    reflexivity.
  - cbn [orb]. split_branches; discriminate.
Qed.

Lemma existsb_sensitive (combination : dict) (f st : string) :
  In (f, st) combination ->
  mem (PyStr.lower f) ["password"; "otp"; "token"] = true ->
  mem st ["Invalid"; "Empty"] = true ->
  existsb sensitive_failure combination = true.
Proof.
  intros Hin Hf Hst. apply existsb_exists. exists (f, st).
  split; [exact Hin |]. unfold sensitive_failure. cbn [fst snd].
  now rewrite Hf, Hst.
Qed.

(** X15.  Detector and classifier agree on login scenarios: whenever the
    detector answers with the login profile, every case of the response
    in which a password, otp or token field is Invalid or Empty is
    labelled Security. *)
Theorem login_failures_are_security (req : CombinationRequest.t)
  (c : CombinationCase.t) (f st : string) :
  CombinationRequest.valid req ->
  detect_fields_for_scenario (CombinationRequest.scenario req) = login_profile ->
  In c (CombinationResponse.cases (generate_combinations req)) ->
  In (f, st) (CombinationCase.combination c) ->
  mem (PyStr.lower f) ["password"; "otp"; "token"] = true ->
  mem st ["Invalid"; "Empty"] = true ->
  In "Security" (CombinationCase.category c).
Proof.
  intros [_ [Hlo _]] Hlogin Hc Hitem Hf Hst.
  apply In_nth_error in Hc as [k Hk].
  destruct (generate_case_nth req k c ltac:(lia) Hk) as [t [b [_ ->]]].
  unfold make_case in *. cbn [CombinationCase.category CombinationCase.combination] in *.
  apply mem_In. rewrite categorize_as_labels_of. unfold labels_of.
  assert (Hsig : security_signal (env_scenario (loop_env req))
                   (build_combination (env_text_fields (loop_env req))
                      (env_binary_fields (loop_env req)) t b) = true).
  { unfold security_signal. unfold loop_env at 1. cbn [env_scenario].
    rewrite strip_idem, (detect_login_security _ Hlogin).
    now rewrite (existsb_sensitive _ f st Hitem Hf Hst). }
  rewrite Hsig, (security_signal_has_state _ _ Hsig). cbn [negb].
  destruct (has_state "Empty" _); reflexivity.
Qed.

Lemma login_failures_are_security_witness :
  let req := CombinationRequest.mk "User Sign-In" web None None 108 in
  exists c,
    nth_error (CombinationResponse.cases (generate_combinations req)) 4 = Some c
    /\ In ("otp", "Invalid") (CombinationCase.combination c)
    /\ In "Security" (CombinationCase.category c).
Proof.
  cbv zeta.
  destruct (nth_error
              (CombinationResponse.cases
                 (generate_combinations
                    (CombinationRequest.mk "User Sign-In" web None None 108)))
              4) as [c |] eqn:Hc; [| vm_compute in Hc; discriminate Hc].
  exists c. split; [reflexivity |].
  assert (Hitem : In ("otp", "Invalid") (CombinationCase.combination c)).
  { assert (E : option_map CombinationCase.combination (Some c)
                = Some [("username", "Valid"); ("password", "Valid");
                        ("otp", "Invalid"); ("remember_me", "Checked");
                        ("show_password", "Checked")])
      by (rewrite <- Hc; vm_compute; reflexivity).
    cbn [option_map] in E. injection E as ->. cbn. tauto. }
  split; [exact Hitem |].
  apply (login_failures_are_security
           (CombinationRequest.mk "User Sign-In" web None None 108) c "otp" "Invalid").
  - unfold CombinationRequest.valid. simpl. lia.
  - vm_compute. reflexivity.
  - exact (nth_error_In _ _ Hc).
  - exact Hitem.
  - reflexivity.
  - reflexivity.
Defined.

(* ================================================================= *)
(** ** No assignment twice, and none left out *)

Lemma digit_tuple_inj (xs : list string) (n i j : nat) :
  NoDup xs -> xs <> [] ->
  (i < List.length xs ^ n)%nat -> (j < List.length xs ^ n)%nat ->
  digit_tuple xs n i = digit_tuple xs n j -> i = j.
Proof.
  intros Hnd Hxs.
  assert (Hb : List.length xs <> 0%nat) by (destruct xs; [congruence | discriminate]).
  revert i j. induction n as [| n IH]; intros i j Hi Hj Heq.
  - cbn in Hi, Hj. lia.
  - rewrite !digit_tuple_S in Heq by assumption.
    injection Heq as Hhead Htail.
    assert (Hp : (List.length xs ^ n)%nat <> 0%nat) by (apply Nat.pow_nonzero; exact Hb).
    apply IH in Htail; try (apply Nat.mod_upper_bound; exact Hp).
    assert (Hq : (i / List.length xs ^ n = j / List.length xs ^ n)%nat).
    { apply (proj1 (NoDup_nth xs "") Hnd); try exact Hhead;
        apply Nat.Div0.div_lt_upper_bound; cbn [Nat.pow] in Hi, Hj; lia. }
    rewrite (Nat.div_mod_eq i (List.length xs ^ n)).
    rewrite (Nat.div_mod_eq j (List.length xs ^ n)).
    now rewrite Hq, Htail.
Qed.

Lemma combine_inj (ks a b : list string) :
  List.length a = List.length ks -> List.length b = List.length ks ->
  combine ks a = combine ks b -> a = b.
Proof.
  revert a b. induction ks as [| k ks IH]; intros [| x a] [| y b] Ha Hb H;
    try reflexivity; try discriminate.
  cbn [combine] in H. injection H as -> H.
  f_equal. apply IH; [now injection Ha | now injection Hb | exact H].
Qed.

Lemma app_inj_length {A : Type} (a b c d : list A) :
  List.length a = List.length c -> a ++ b = c ++ d -> a = c /\ b = d.
Proof.
  revert c. induction a as [| x a IH]; intros [| y c] Hlen H;
    try discriminate.
  - now split.
  - cbn [app] in H. injection H as -> H.
    destruct (IH c ltac:(now injection Hlen) H) as [-> ->]. now split.
Qed.

Lemma assignment_at_inj (tf bf : list string) (i j : nat) :
  (i < 3 ^ List.length tf * 2 ^ List.length bf)%nat ->
  (j < 3 ^ List.length tf * 2 ^ List.length bf)%nat ->
  assignment_at tf bf i = assignment_at tf bf j -> i = j.
Proof.
  intros Hi Hj H. unfold assignment_at in H.
  assert (H2 : (2 ^ List.length bf)%nat <> 0%nat) by (apply Nat.pow_nonzero; lia).
  apply app_inj_length in H as [Ht Hb];
    [| now rewrite !length_combine, !digit_tuple_length].
  apply combine_inj in Ht; try apply digit_tuple_length.
  apply combine_inj in Hb; try apply digit_tuple_length.
  apply digit_tuple_inj in Ht;
    [ | apply nodupb_NoDup; reflexivity | discriminate
      | cbn [TEXT_STATES List.length]; apply Nat.Div0.div_lt_upper_bound; lia
      | cbn [TEXT_STATES List.length]; apply Nat.Div0.div_lt_upper_bound; lia ].
  apply digit_tuple_inj in Hb;
    [ | apply nodupb_NoDup; reflexivity | discriminate
      | cbn [BINARY_STATES List.length]; apply Nat.mod_upper_bound; exact H2
      | cbn [BINARY_STATES List.length]; apply Nat.mod_upper_bound; exact H2 ].
  rewrite (Nat.div_mod_eq i (2 ^ List.length bf)).
  rewrite (Nat.div_mod_eq j (2 ^ List.length bf)).
  now rewrite Ht, Hb.
Qed.

Lemma product_complete (xs ts : list string) :
  Forall (fun st => In st xs) ts -> In ts (product xs (List.length ts)).
Proof.
  induction 1 as [| st ts Hst _ IH]; [now left |].
  cbn [List.length product]. apply in_flat_map. exists st.
  split; [exact Hst |]. now apply in_map.
Qed.

Lemma generate_assignment_at (req : CombinationRequest.t) (k : nat) :
  (0 <= CombinationRequest.max_cases req)%Z ->
  NoDup (fst (resolve_fields req) ++ snd (resolve_fields req)) ->
  (k < List.length (CombinationResponse.cases (generate_combinations req)))%nat ->
  nth_error
    (map CombinationCase.combination
       (CombinationResponse.cases (generate_combinations req))) k
  = Some (assignment_at (fst (resolve_fields req)) (snd (resolve_fields req)) k).
Proof.
  intros Hmax Hnd Hk.
  pose proof (generate_assignment_nth req k Hmax) as H. cbv zeta in H.
  rewrite H by (rewrite generate_returned_count; lia).
  f_equal. apply build_combination_fresh; [exact Hnd | apply digit_tuple_length].
Qed.

(** X16.  When the resolved names are pairwise different, no assignment
    is emitted twice; and when the cap is at least the total, every
    assignment of a text state to each text field and of a binary state
    to each binary field is emitted. *)
Theorem emitted_assignments_distinct_complete (req : CombinationRequest.t) :
  CombinationRequest.valid req ->
  let resp := generate_combinations req in
  let tf := CombinationResponse.text_fields resp in
  let bf := CombinationResponse.binary_fields resp in
  let assignments :=
    map CombinationCase.combination (CombinationResponse.cases resp) in
  NoDup (tf ++ bf) ->
  NoDup assignments
  /\ ((CombinationResponse.total_combinations resp
       <= CombinationRequest.max_cases req)%Z ->
      forall ts bs,
        List.length ts = List.length tf -> List.length bs = List.length bf ->
        Forall (fun st => In st TEXT_STATES) ts ->
        Forall (fun st => In st BINARY_STATES) bs ->
        In (combine tf ts ++ combine bf bs) assignments).
Proof.
  intros [_ [Hlo _]]. cbv zeta.
  rewrite generate_text_fields, generate_binary_fields, generate_total.
  intros Hnd.
  assert (Hmax : (0 <= CombinationRequest.max_cases req)%Z) by lia.
  assert (Hlen : (List.length (CombinationResponse.cases (generate_combinations req))
                  <= 3 ^ List.length (fst (resolve_fields req))
                     * 2 ^ List.length (snd (resolve_fields req)))%nat).
  { pose proof (generate_count_min req Hmax) as H.
    rewrite generate_returned_count, generate_total, total_as_nat in H. lia. }
  split.
  - apply NoDup_nth_error. intros i j Hi Heq. rewrite length_map in Hi.
    rewrite (generate_assignment_at req i Hmax Hnd Hi) in Heq.
    assert (Hj : (j < List.length (CombinationResponse.cases
                                     (generate_combinations req)))%nat).
    { rewrite <- (length_map CombinationCase.combination).
      apply nth_error_Some. congruence. }
    rewrite (generate_assignment_at req j Hmax Hnd Hj) in Heq.
    injection Heq as Heq. apply assignment_at_inj in Heq; [exact Heq | lia | lia].
  - intros Hcap ts bs Hlt Hlb Ht Hb.
    rewrite generate_assignments by assumption.
    rewrite firstn_all2
      by (rewrite state_pairs_length; rewrite total_as_nat in Hcap; lia).
    apply in_map_iff. exists (ts, bs). cbn [fst snd]. split.
    + apply build_combination_fresh; [exact Hnd | exact Hlt].
    + unfold state_pairs. apply in_prod.
      * rewrite <- Hlt. now apply product_complete.
      * rewrite <- Hlb. now apply product_complete.
Qed.

Lemma emitted_assignments_distinct_complete_witness :
  let req := CombinationRequest.mk "logout" api None None 6 in
  In [("session_id", "Empty"); ("is_network_connected", "Unchecked")]
     (map CombinationCase.combination
        (CombinationResponse.cases (generate_combinations req))).
Proof.
  cbv zeta.
  destruct (emitted_assignments_distinct_complete
              (CombinationRequest.mk "logout" api None None 6)) as [_ Hall].
  - unfold CombinationRequest.valid. simpl. lia.
  - vm_compute. apply nodupb_NoDup. reflexivity.
  - apply (Hall ltac:(vm_compute; discriminate) ["Empty"] ["Unchecked"]).
    + reflexivity.
    + reflexivity.
    + apply Forall_cons; [cbn; tauto | constructor].
    + apply Forall_cons; [cbn; tauto | constructor].
Defined.

(* ================================================================= *)
(** ** The response as a whole, and the download *)

Lemma generate_paging (req : CombinationRequest.t) :
  let resp := generate_combinations req in
  CombinationResponse.page resp = 1%Z
  /\ CombinationResponse.pages_total resp = 1%Z
  /\ CombinationResponse.page_size resp = CombinationResponse.returned_count resp
  /\ CombinationResponse.platform resp
     = platform_str (CombinationRequest.platform req)
  /\ CombinationResponse.combined_markdown resp
     = PyStr.join PyStr.nl
         (map CombinationCase.markdown (CombinationResponse.cases resp)).
Proof.
  cbv zeta. unfold generate_combinations. destruct (resolve_fields req) as [tf bf].
  now destruct (outer_loop _ _ _ _).
Qed.

(** X17.  A valid request always gets one page that is not empty: at
    least one case and at most max_cases, never more than the total;
    page and pages_total are 1 and page_size is the number of cases; the
    combined document is the Markdown of the cases joined by newlines. *)
Theorem response_single_nonempty_page (req : CombinationRequest.t) :
  CombinationRequest.valid req ->
  let resp := generate_combinations req in
  (1 <= CombinationResponse.returned_count resp
   <= CombinationRequest.max_cases req)%Z
  /\ (CombinationResponse.returned_count resp
      <= CombinationResponse.total_combinations resp)%Z
  /\ CombinationResponse.cases resp <> []
  /\ CombinationResponse.page resp = 1%Z
  /\ CombinationResponse.pages_total resp = 1%Z
  /\ CombinationResponse.page_size resp
     = Z.of_nat (List.length (CombinationResponse.cases resp))
  /\ CombinationResponse.combined_markdown resp
     = PyStr.join PyStr.nl
         (map CombinationCase.markdown (CombinationResponse.cases resp)).
Proof.
  intros [_ [Hlo _]]. cbv zeta.
  destruct (generate_paging req) as [Hp [Hpt [Hps [_ Hmd]]]]. cbv zeta in Hps.
  pose proof (generate_count_min req ltac:(lia)) as Hmin.
  pose proof (generate_first_position req Hlo) as Hpos.
  pose proof (generate_returned_count req) as Hrc.
  repeat split; try assumption; try lia.
  intros Hnil. rewrite Hnil in Hrc. cbn in Hrc. lia.
Qed.

Lemma response_single_nonempty_page_witness :
  let req := CombinationRequest.mk "xyzzy operation" generic None None 1 in
  CombinationResponse.cases (generate_combinations req) <> [].
Proof.
  cbv zeta.
  apply (response_single_nonempty_page
           (CombinationRequest.mk "xyzzy operation" generic None None 1)).
  unfold CombinationRequest.valid. simpl. lia.
Defined.





(* ================================================================= *)
(** ** The earlier generator *)

Lemma legacy_inner_loop_spec (max_cases : Z) (tf bf t : list string)
  (bs : list (list string)) (c : Z) (acc : list Legacy.Case) :
  Legacy.inner_loop max_cases tf bf t bs (c, acc)
  = ((c + Z.of_nat (Nat.min (Z.to_nat (max_cases - c)) (List.length bs)))%Z,
     acc ++ map (Legacy.make_case tf bf t) (firstn (Z.to_nat (max_cases - c)) bs)).
Proof.
  revert c acc. induction bs as [| b bs IH]; intros c acc.
  - cbn [Legacy.inner_loop]. rewrite firstn_nil, Nat.min_0_r. cbn [map].
    now rewrite app_nil_r, Z.add_0_r.
  - cbn [Legacy.inner_loop fst snd].
    destruct (c >=? max_cases)%Z eqn:E.
    + apply Z.geb_le in E.
      replace (Z.to_nat (max_cases - c)) with 0%nat by lia.
      cbn. now rewrite app_nil_r, Z.add_0_r.
    + rewrite Z.geb_leb in E. apply Z.leb_gt in E.
      rewrite IH.
      replace (Z.to_nat (max_cases - c)) with (S (Z.to_nat (max_cases - (c + 1))))
        by lia.
      cbn [firstn map List.length Nat.min]. rewrite <- app_assoc. cbn [app].
      f_equal. lia.
Qed.

Lemma legacy_outer_loop_spec (max_cases : Z) (tf bf : list string)
  (ts bs : list (list string)) (c : Z) (acc : list Legacy.Case) :
  snd (Legacy.outer_loop max_cases tf bf ts bs (c, acc))
  = acc ++ map (fun p => Legacy.make_case tf bf (fst p) (snd p))
             (firstn (Z.to_nat (max_cases - c)) (list_prod ts bs)).
Proof.
  revert c acc. induction ts as [| t ts IH]; intros c acc.
  - cbn. now rewrite firstn_nil, app_nil_r.
  - cbn [Legacy.outer_loop list_prod].
    rewrite legacy_inner_loop_spec, IH.
    rewrite firstn_app, map_app, <- app_assoc, length_map.
    f_equal. f_equal.
    + now rewrite firstn_map, map_map.
    + do 2 f_equal. lia.
Qed.

Lemma legacy_fields_distinct (scenario : string) :
  nodupb (Legacy.text_fields (Legacy.detect_scenario_fields scenario)
          ++ Legacy.binary_fields (Legacy.detect_scenario_fields scenario)) = true
  /\ is_nil (Legacy.text_fields (Legacy.detect_scenario_fields scenario)) = false
  /\ is_nil (Legacy.binary_fields (Legacy.detect_scenario_fields scenario)) = false.
Proof.
  unfold Legacy.detect_scenario_fields. cbv zeta.
  cbn [Legacy.first_match Legacy.AUTOMOTIVE_SCENARIOS Legacy.config_keywords
       Legacy.keywords].
  split_branches; repeat split; reflexivity.
Qed.

Lemma legacy_make_case (tf bf t b : list string) :
  NoDup bf ->
  Legacy.make_case tf bf t b = Legacy.mkCase (build_combination tf bf t b).
Proof.
  intros Hnd. unfold Legacy.make_case, build_combination, Legacy.dict_merge.
  rewrite (dict_update_zip_fresh bf b []) by exact Hnd. reflexivity.
Qed.

Lemma legacy_inputs (scenario : string) (max_cases : Z) :
  let config := Legacy.detect_scenario_fields scenario in
  map Legacy.inputs (snd (Legacy.generate_combinations scenario max_cases))
  = map (fun p => build_combination (Legacy.text_fields config)
                    (Legacy.binary_fields config) (fst p) (snd p))
      (firstn (Z.to_nat max_cases)
         (state_pairs (Legacy.text_fields config) (Legacy.binary_fields config))).
Proof.
  cbv zeta. unfold Legacy.generate_combinations.
  match goal with
  | |- context [Legacy.outer_loop ?m ?tf ?bf ?ts ?bs ?st] =>
      pose proof (legacy_outer_loop_spec m tf bf ts bs 0 []) as Hspec;
      destruct (Legacy.outer_loop m tf bf ts bs st) as [count final_cases]
  end.
  cbn [snd app] in Hspec |- *. rewrite Hspec, Z.sub_0_r, map_map.
  unfold state_pairs. apply map_ext. intros [t b]. cbn [fst snd].
  rewrite legacy_make_case; [reflexivity |].
  destruct (legacy_fields_distinct scenario) as [Hnd _].
  apply nodupb_NoDup in Hnd. exact (NoDup_app_remove_l _ _ Hnd).
Qed.

(** X19.  The earlier generator always works on a field model with at
    least one text field and one binary field and no name twice; it
    reports the total 3^t * 2^b, returns min(total, max_cases) cases (none
    for a cap that is not positive), and their inputs are the assignments
    of the enumeration in its order, cut at the cap. *)
Theorem legacy_generate_combinations_spec (scenario : string) (max_cases : Z) :
  let config := Legacy.detect_scenario_fields scenario in
  let tf := Legacy.text_fields config in
  let bf := Legacy.binary_fields config in
  let result := Legacy.generate_combinations scenario max_cases in
  NoDup (tf ++ bf) /\ tf <> [] /\ bf <> []
  /\ fst result = (3 ^ Z.of_nat (List.length tf) * 2 ^ Z.of_nat (List.length bf))%Z
  /\ List.length (snd result) = Z.to_nat (Z.min (fst result) max_cases)
  /\ map Legacy.inputs (snd result)
     = map (fun p => build_combination tf bf (fst p) (snd p))
         (firstn (Z.to_nat max_cases) (state_pairs tf bf)).
Proof.
  cbv zeta.
  destruct (legacy_fields_distinct scenario) as [Hnd [Ht Hb]].
  assert (Htotal : fst (Legacy.generate_combinations scenario max_cases)
                   = Z.of_nat (3 ^ List.length
                                 (Legacy.text_fields
                                    (Legacy.detect_scenario_fields scenario))
                               * 2 ^ List.length
                                   (Legacy.binary_fields
                                      (Legacy.detect_scenario_fields scenario)))).
  { unfold Legacy.generate_combinations.
    destruct (Legacy.outer_loop _ _ _ _ _ _). cbn [fst].
    rewrite !product_length. cbn [List.length]. lia. }
  pose proof (legacy_inputs scenario max_cases) as Hin. cbv zeta in Hin.
  repeat split.
  - now apply nodupb_NoDup.
  - intros E. rewrite E in Ht. discriminate Ht.
  - intros E. rewrite E in Hb. discriminate Hb.
  - rewrite Htotal. now rewrite Nat2Z.inj_mul, !Nat2Z.inj_pow.
  - rewrite <- (length_map Legacy.inputs), Hin, length_map, length_firstn.
    rewrite state_pairs_length, Htotal. lia.
  - exact Hin.
Qed.

(** X20.  The two generators enumerate alike: a valid request to the
    current generator that names the fields the earlier one detects gets
    the same total and, case by case, the same assignments as the earlier
    generator with the same cap. *)
Theorem legacy_agrees_with_core (req : CombinationRequest.t) (scenario : string) :
  CombinationRequest.valid req ->
  CombinationRequest.text_fields req
  = Some (Legacy.text_fields (Legacy.detect_scenario_fields scenario)) ->
  CombinationRequest.binary_fields req
  = Some (Legacy.binary_fields (Legacy.detect_scenario_fields scenario)) ->
  let result :=
    Legacy.generate_combinations scenario (CombinationRequest.max_cases req) in
  CombinationResponse.total_combinations (generate_combinations req) = fst result
  /\ map CombinationCase.combination
       (CombinationResponse.cases (generate_combinations req))
     = map Legacy.inputs (snd result).
Proof.
  intros [_ [Hlo _]] Htf Hbf. cbv zeta.
  destruct (legacy_fields_distinct scenario) as [_ [Ht Hb]].
  assert (Hres : resolve_fields req
                 = (Legacy.text_fields (Legacy.detect_scenario_fields scenario),
                    Legacy.binary_fields (Legacy.detect_scenario_fields scenario))).
  { unfold resolve_fields. rewrite Htf, Hbf.
    destruct (Legacy.text_fields _) as [| x tf]; [discriminate Ht |].
    destruct (Legacy.binary_fields _) as [| y bf]; [discriminate Hb |].
    reflexivity. }
  pose proof (legacy_inputs scenario (CombinationRequest.max_cases req)) as Hin.
  cbv zeta in Hin. split.
  - rewrite generate_total, Hres. cbn [fst snd].
    unfold Legacy.generate_combinations.
    destruct (Legacy.outer_loop _ _ _ _ _ _). cbn [fst].
    rewrite !product_length, total_as_nat. cbn [List.length]. lia.
  - rewrite Hin, generate_assignments by lia. now rewrite Hres.
Qed.

Lemma legacy_agrees_with_core_witness :
  let req :=
    CombinationRequest.mk "wifi setup" automotive
      (Some ["ssid"; "password"]) (Some ["hotspot_enabled"; "autoconnect"]) 20 in
  map CombinationCase.combination
    (CombinationResponse.cases (generate_combinations req))
  = map Legacy.inputs (snd (Legacy.generate_combinations "WiFi hotspot" 20)).
Proof.
  cbv zeta.
  apply (legacy_agrees_with_core
           (CombinationRequest.mk "wifi setup" automotive
              (Some ["ssid"; "password"])
              (Some ["hotspot_enabled"; "autoconnect"]) 20)
           "WiFi hotspot").
  - unfold CombinationRequest.valid. simpl. lia.
  - vm_compute. reflexivity.
  - vm_compute. reflexivity.
Defined.
